(** * DEP Framework: auditor, ethical mirror and proof-of-humanism

    A shallow embedding of the TypeScript sources

      - [src/neuro-solidity-auditor/index.ts]  (NeuroSolidityAuditor,
        ModelIntegration, EthicalMirrorEngine)
      - [src/proof-of-humanism/index.ts]       (ProofOfHumanism)

    JavaScript strings are sequences of UTF-16 code units; regular
    expressions are given their ECMAScript backtracking semantics on the
    fragment the sources use; methods that may throw return a [completion]. *)

From Stdlib Require Import String Ascii ZArith NArith QArith Bool Lia List.
From Stdlib Require Import Qround DecimalString DecimalPos DecimalN Sorted Lqa.
Import ListNotations.

Local Open Scope Z_scope.

(* ================================================================== *)
(** ** JavaScript strings and the library functions the sources call  *)
(* ================================================================== *)

Module JS.

(** A JavaScript string is a sequence of 16-bit code units. *)
Definition code_unit := N.
Definition jsstring := list code_unit.

Definition byte_of (a : ascii) : N := N_of_ascii a.

(** Source literals are written as UTF-8 text and decoded to code units
    (one unit below U+10000, a surrogate pair above). *)
Fixpoint js (s : string) : jsstring :=
  match s with
  | EmptyString => []
  | String a r =>
      let b0 := byte_of a in
      if (b0 <? 128)%N then b0 :: js r
      else if (b0 <? 224)%N then
        match r with
        | String b r1 => ((b0 - 192) * 64 + (byte_of b - 128))%N :: js r1
        | EmptyString => [b0]
        end
      else if (b0 <? 240)%N then
        match r with
        | String b (String c r2) =>
            ((b0 - 224) * 4096 + (byte_of b - 128) * 64 + (byte_of c - 128))%N
              :: js r2
        | _ => [b0]
        end
      else
        match r with
        | String b (String c (String d r3)) =>
            let cp := ((b0 - 240) * 262144 + (byte_of b - 128) * 4096
                       + (byte_of c - 128) * 64 + (byte_of d - 128))%N in
            let v := (cp - 65536)%N in
            (55296 + v / 1024)%N :: (56320 + v mod 1024)%N :: js r3
        | _ => [b0]
        end
  end.

Definition unit_eqb (a b : code_unit) : bool := N.eqb a b.
Arguments unit_eqb (a b)%_N.

Fixpoint str_eqb (a b : jsstring) : bool :=
  match a, b with
  | [], [] => true
  | x :: a', y :: b' => unit_eqb x y && str_eqb a' b'
  | _, _ => false
  end.

Fixpoint startsWith (p s : jsstring) : bool :=
  match p, s with
  | [], _ => true
  | x :: p', y :: s' => unit_eqb x y && startsWith p' s'
  | _ :: _, [] => false
  end.

(** [String.prototype.includes]. *)
Fixpoint includes (s p : jsstring) : bool :=
  startsWith p s || match s with [] => false | _ :: s' => includes s' p end.

(** First occurrence of [p] in [s]: the text before it and the text after it. *)
Fixpoint find_first (p s : jsstring) : option (jsstring * jsstring) :=
  if startsWith p s then Some ([], skipn (length p) s)
  else match s with
       | [] => None
       | x :: s' =>
           match find_first p s' with
           | Some (pre, post) => Some (x :: pre, post)
           | None => None
           end
       end.

Definition DOLLAR : code_unit := 36%N.

(** GetSubstitution: [$$], [$&], [$`], [$'] and [$1]..[$9] (when that
    capture exists) are expanded, every other [$] stands for itself.  A
    string pattern has no captures. *)
Fixpoint GetSubstitution (matched pre post : jsstring) (captures : list jsstring)
         (template : jsstring) : jsstring :=
  match template with
  | [] => []
  | x :: t =>
      if unit_eqb x DOLLAR then
        match t with
        | y :: t' =>
            if unit_eqb y 36%N then DOLLAR :: GetSubstitution matched pre post captures t'
            else if unit_eqb y 38%N then matched ++ GetSubstitution matched pre post captures t'
            else if unit_eqb y 96%N then pre ++ GetSubstitution matched pre post captures t'
            else if unit_eqb y 39%N then post ++ GetSubstitution matched pre post captures t'
            else if ((49 <=? y) && (y <=? 57))%N then
              match nth_error captures (N.to_nat (y - 49)) with
              | Some c => c ++ GetSubstitution matched pre post captures t'
              | None => x :: GetSubstitution matched pre post captures t
              end
            else x :: GetSubstitution matched pre post captures t
        | [] => [x]
        end
      else x :: GetSubstitution matched pre post captures t
  end.

(** [s.replace(p, template)] with a string pattern: only the first
    occurrence is replaced. *)
Definition replace (s p template : jsstring) : jsstring :=
  match find_first p s with
  | Some (pre, post) => pre ++ GetSubstitution p pre post [] template ++ post
  | None => s
  end.

Definition QUOTE : jsstring := [34%N].

Definition NEWLINE : code_unit := 10%N.

(** [s.split('\n')]: the pieces between line feeds, empty ones kept. *)
Fixpoint split_lines_aux (cur : jsstring) (s : jsstring) : list jsstring :=
  match s with
  | [] => [rev cur]
  | x :: s' =>
      if unit_eqb x NEWLINE then rev cur :: split_lines_aux [] s'
      else split_lines_aux (x :: cur) s'
  end.

Definition split_lines (s : jsstring) : list jsstring := split_lines_aux [] s.

(** [a.join('\n')]. *)
Fixpoint join_lines (l : list jsstring) : jsstring :=
  match l with
  | [] => []
  | [x] => x
  | x :: r => x ++ NEWLINE :: join_lines r
  end.

(** [a.slice(from, to)] for indices that are already non-negative. *)
Definition slice {A} (l : list A) (from to : nat) : list A :=
  firstn (to - from) (skipn from l).

(** Decimal rendering of a non-negative integer inside a template string. *)
Definition decimal (n : N) : jsstring := js (NilZero.string_of_uint (N.to_uint n)).

(** POSIX [path.basename]: trailing slashes dropped, then the last segment. *)
Fixpoint last_segment (cur : jsstring) (s : jsstring) : jsstring :=
  match s with
  | [] => rev cur
  | x :: s' => if unit_eqb x 47%N then last_segment [] s' else last_segment (x :: cur) s'
  end.

Fixpoint drop_slashes (r : jsstring) : jsstring :=
  match r with
  | x :: r' => if unit_eqb x 47%N then drop_slashes r' else r
  | [] => []
  end.

Definition basename (p : jsstring) : jsstring :=
  last_segment [] (rev (drop_slashes (rev p))).

(** Abrupt and normal completion of a method call. *)
Inductive completion (A : Type) : Type :=
| Return (v : A)
| Throw (message : jsstring).
Arguments Return {A} v.
Arguments Throw {A} message.

(** JavaScript numbers, as far as the sources compare them: IEEE
    comparisons are exact, so a finite double is the rational it denotes. *)
Inductive number : Type :=
| NaN
| NegInfinity
| PosInfinity
| Num (q : Q).

Definition of_Z (z : Z) : number := Num (inject_Z z).

Definition Qltb (a b : Q) : bool := negb (Qle_bool b a).

(** [a < b]. *)
Definition lt (a b : number) : bool :=
  match a, b with
  | NaN, _ | _, NaN => false
  | NegInfinity, NegInfinity => false
  | NegInfinity, _ => true
  | _, NegInfinity => false
  | PosInfinity, _ => false
  | Num _, PosInfinity => true
  | Num x, Num y => Qltb x y
  end.

(** [a > b]. *)
Definition gt (a b : number) : bool := lt b a.

(** [a <= b] in the mathematical sense, false on NaN. *)
Definition le (a b : number) : bool :=
  match a, b with
  | NaN, _ | _, NaN => false
  | NegInfinity, _ => true
  | _, PosInfinity => true
  | Num x, Num y => Qle_bool x y
  | _, _ => false
  end.

End JS.

Import JS.

(* ================================================================== *)
(** ** Regular expressions (the fragment the sources use)             *)
(* ================================================================== *)

Module RegExp.

(** One-character matchers. *)
Inductive cclass : Type :=
| CAny                      (* .  *)
| CSpace                    (* \s *)
| CDigit                    (* \d *)
| CLit (c : code_unit).     (* a pattern character *)

(** Capturing groups do not change what [test] and [match] return and
    are left out. *)
Inductive regex : Type :=
| Empty
| Atom (c : cclass)
| Seq (r1 r2 : regex)
| Alt (r1 r2 : regex)               (* r1|r2 *)
| Star (c : cclass)                 (* c*, greedy *)
| AtLeast (n : nat) (c : cclass)    (* c{n,}, greedy *)
| NotAhead (r : regex)              (* (?!r) *)
| WordBoundary.                     (* \b *)

Definition in_range (lo hi c : N) : bool := ((lo <=? c) && (c <=? hi))%N.
Arguments in_range (lo hi c)%_N.

(** Canonicalize of a non-unicode, ignoreCase pattern: the upper-case
    image of a code unit.  The table covers the alphabets of the rule
    tables, Basic Latin and Cyrillic (with the Cyrillic Extended-C
    variants that upper-case into it); a non-ASCII unit never folds to an
    ASCII one, and every other unit stands for itself. *)
Definition Canonicalize (c : code_unit) : code_unit :=
  if in_range 97 122 c then (c - 32)%N
  else if in_range 1072 1103 c then (c - 32)%N
  else if in_range 1104 1119 c then (c - 80)%N
  else if unit_eqb c 7296 then 1042%N
  else if unit_eqb c 7297 then 1044%N
  else if unit_eqb c 7298 then 1054%N
  else if unit_eqb c 7299 then 1057%N
  else if unit_eqb c 7300 then 1058%N
  else if unit_eqb c 7301 then 1058%N
  else if unit_eqb c 7302 then 1066%N
  else c.

Definition isLineTerminator (c : code_unit) : bool :=
  unit_eqb c 10 || unit_eqb c 13 || unit_eqb c 8232 || unit_eqb c 8233.

Definition isWhiteSpace (c : code_unit) : bool :=
  in_range 9 13 c || unit_eqb c 32 || unit_eqb c 160 || unit_eqb c 5760
  || in_range 8192 8202 c || unit_eqb c 8232 || unit_eqb c 8233
  || unit_eqb c 8239 || unit_eqb c 8287 || unit_eqb c 12288 || unit_eqb c 65279.

Definition isDigit (c : code_unit) : bool := in_range 48 57 c.

(** \w: [A-Za-z0-9_]. *)
Definition isWordChar (c : code_unit) : bool :=
  in_range 97 122 c || in_range 65 90 c || in_range 48 57 c || unit_eqb c 95.

Definition isWord (o : option code_unit) : bool :=
  match o with Some c => isWordChar c | None => false end.

Section Matcher.

Variable ignoreCase : bool.

Definition accepts (c : cclass) (x : code_unit) : bool :=
  match c with
  | CAny => negb (isLineTerminator x)
  | CSpace => isWhiteSpace x
  | CDigit => isDigit x
  | CLit p =>
      if ignoreCase then unit_eqb (Canonicalize p) (Canonicalize x)
      else unit_eqb p x
  end.

Definition orElse {A} (a b : option A) : option A :=
  match a with Some _ => a | None => b end.

(** Greedy iteration, longest first, backing off one unit at a time.
    [prev] is the unit before the current position. *)
Fixpoint star {A} (c : cclass) (prev : option code_unit) (s : jsstring)
         (k : option code_unit -> jsstring -> option A) : option A :=
  match s with
  | x :: s' =>
      if accepts c x then orElse (star c (Some x) s' k) (k prev s)
      else k prev s
  | [] => k prev s
  end.

Fixpoint atLeast {A} (n : nat) (c : cclass) (prev : option code_unit)
         (s : jsstring) (k : option code_unit -> jsstring -> option A)
  : option A :=
  match n with
  | O => star c prev s k
  | S n' =>
      match s with
      | x :: s' => if accepts c x then atLeast n' c (Some x) s' k else None
      | [] => None
      end
  end.

(** The backtracking matcher in continuation style: [run r prev s k]
    matches [r] at the head of [s] and hands the rest to [k];
    alternatives are tried in priority order. *)
Fixpoint run {A} (r : regex) (prev : option code_unit) (s : jsstring)
         (k : option code_unit -> jsstring -> option A) : option A :=
  match r with
  | Empty => k prev s
  | Atom c =>
      match s with
      | x :: s' => if accepts c x then k (Some x) s' else None
      | [] => None
      end
  | Seq r1 r2 => run r1 prev s (fun p t => run r2 p t k)
  | Alt r1 r2 => orElse (run r1 prev s k) (run r2 prev s k)
  | Star c => star c prev s k
  | AtLeast n c => atLeast n c prev s k
  | NotAhead r' =>
      match run r' prev s (fun _ _ => Some tt) with
      | Some _ => None
      | None => k prev s
      end
  | WordBoundary =>
      if xorb (isWord prev) (isWord (hd_error s)) then k prev s else None
  end.

(** A match starting exactly here: the text left after it. *)
Definition matchHere (r : regex) (prev : option code_unit) (s : jsstring)
  : option jsstring :=
  run r prev s (fun _ t => Some t).

(** [r.test(s)] for a regex without the g flag: some start position matches. *)
Fixpoint test_from (r : regex) (prev : option code_unit) (s : jsstring) : bool :=
  match matchHere r prev s with
  | Some _ => true
  | None =>
      match s with
      | [] => false
      | x :: s' => test_from r (Some x) s'
      end
  end.

Definition test (r : regex) (s : jsstring) : bool := test_from r None s.

(** The successive matches of a global regex, left to right, not
    overlapping.  [skip] counts the units of the last match still to
    be stepped over. *)
Fixpoint matches_from (r : regex) (prev : option code_unit) (s : jsstring)
         (skip : nat) : list jsstring :=
  match skip with
  | S n =>
      match s with
      | x :: s' => matches_from r (Some x) s' n
      | [] => []
      end
  | O =>
      match matchHere r prev s with
      | Some t =>
          let n := (length s - length t)%nat in
          firstn n s ::
            match s with
            | x :: s' => matches_from r (Some x) s' (pred n)
            | [] => []
            end
      | None =>
          match s with
          | x :: s' => matches_from r (Some x) s' O
          | [] => []
          end
      end
  end.

(** The leftmost match: the text before it, the match, the text after. *)
Fixpoint exec_from (r : regex) (prev : option code_unit) (before : jsstring)
         (s : jsstring) : option (jsstring * jsstring * jsstring) :=
  match matchHere r prev s with
  | Some t => Some (rev before, firstn (List.length s - List.length t) s, t)
  | None =>
      match s with
      | [] => None
      | x :: s' => exec_from r (Some x) (x :: before) s'
      end
  end.

(** [s.match(r)] for a global regex: [null] when nothing matches. *)
Definition match_g (s : jsstring) (r : regex) : option (list jsstring) :=
  match matches_from r None s O with
  | [] => None
  | l => Some l
  end.

End Matcher.

(** A literal word as a pattern. *)
Fixpoint lit (w : jsstring) : regex :=
  match w with
  | [] => Empty
  | [c] => Atom (CLit c)
  | c :: w' => Seq (Atom (CLit c)) (lit w')
  end.

Definition word (w : string) : regex := lit (js w).

(** [new RegExp(source)] for the sources the rule tables hold: a dot is
    the wildcard, every other character matches itself. *)
Fixpoint compile (source : jsstring) : regex :=
  match source with
  | [] => Empty
  | c :: w' =>
      let a := if unit_eqb c 46%N then Atom CAny else Atom (CLit c) in
      match w' with
      | [] => a
      | _ => Seq a (compile w')
      end
  end.

End RegExp.

Import RegExp.

(* ================================================================== *)
(** ** NeuroSolidityAuditor                                           *)
(* ================================================================== *)

Module Auditor.

(** [Vulnerability.severity]: 'critical' | 'high' | 'medium' | 'low' | 'info'. *)
Inductive Severity : Type := critical | high | medium | low | info.

Definition severity_key (s : Severity) : jsstring :=
  match s with
  | critical => js "critical"
  | high => js "high"
  | medium => js "medium"
  | low => js "low"
  | info => js "info"
  end.

Record Vulnerability : Type := {
  id : jsstring;
  name : jsstring;
  severity : Severity;
  description : jsstring;
  lineStart : Z;
  lineEnd : Z;
  codeSnippet : jsstring;
  recommendation : jsstring
}.

Record AuditResult : Type := {
  contractName : jsstring;
  contractPath : jsstring;
  vulnerabilities : list Vulnerability;
  score : Z;
  timestamp : N
}.

(** Property lookup in an object literal used as a table. *)
Fixpoint lookup {A} (table : list (jsstring * A)) (key : jsstring) : option A :=
  match table with
  | [] => None
  | (k, v) :: rest => if str_eqb k key then Some v else lookup rest key
  end.

(** [table[key] || fallback]. *)
Definition lookup_or {A} (table : list (jsstring * A)) (key : jsstring) (fallback : A) : A :=
  match lookup table key with Some v => v | None => fallback end.

Definition severityWeights : list (jsstring * Z) :=
  [ (js "critical", 30); (js "high", 20); (js "medium", 10);
    (js "low", 5); (js "info", 1) ].

(** [calculateSecurityScore]. *)
Definition calculateSecurityScore (vulnerabilities : list Vulnerability) : Z :=
  if Nat.eqb (List.length vulnerabilities) 0 then 100
  else
    let totalPenalty :=
      fold_left
        (fun totalPenalty vuln =>
           totalPenalty + lookup_or severityWeights (severity_key (severity vuln)) 0)
        vulnerabilities 0 in
    let totalPenalty := Z.min totalPenalty 100 in
    100 - totalPenalty.

(** *** The pattern registry *)

Definition seqs (l : list regex) : regex := fold_right Seq Empty l.

(** [.*w]: the lookahead bodies. *)
Definition later (l : list regex) : regex := seqs (Star CAny :: l).

(** The registry of the constructor, in insertion order (the order
    [Object.entries] enumerates); every pattern carries the i flag only. *)
Definition vulnerabilityPatterns : list (jsstring * regex) :=
  [ (* /(\.\s*call\s*{.*value\s*:.*})(?!.*_mutex)/i *)
    (js "reentrancy",
     seqs [word "."; Star CSpace; word "call"; Star CSpace; word "{"; Star CAny;
           word "value"; Star CSpace; word ":"; Star CAny; word "}";
           NotAhead (later [word "_mutex"])]);
    (* /(\+\+|\+=|=\s*\+)(?!.*SafeMath)/i *)
    (js "integerOverflow",
     seqs [Alt (word "++") (Alt (word "+=") (seqs [word "="; Star CSpace; word "+"]));
           NotAhead (later [word "SafeMath"])]);
    (* /\.call\s*{.*}(?!.*require\s*\()/i *)
    (js "uncheckedReturn",
     seqs [word ".call"; Star CSpace; word "{"; Star CAny; word "}";
           NotAhead (later [word "require"; Star CSpace; word "("])]);
    (* /tx\.origin(?!.*!=)/i *)
    (js "txOrigin",
     seqs [word "tx.origin"; NotAhead (later [word "!="])]);
    (* /selfdestruct|suicide/i *)
    (js "unsecuredSelfDestruct",
     Alt (word "selfdestruct") (word "suicide")) ].

(** [pattern.test(line)]. *)
Definition pattern_test (pattern : regex) (line : jsstring) : bool :=
  test true pattern line.

Definition getVulnerabilityName (key : jsstring) : jsstring :=
  lookup_or
    [ (js "reentrancy", js "Reentrancy Vulnerability");
      (js "integerOverflow", js "Integer Overflow");
      (js "uncheckedReturn", js "Unchecked Return Value");
      (js "txOrigin", js "tx.origin Authentication");
      (js "unsecuredSelfDestruct", js "Unsecured Self-Destruct") ]
    key (js "Unknown Vulnerability").

Definition getVulnerabilitySeverity (key : jsstring) : Severity :=
  lookup_or
    [ (js "reentrancy", critical);
      (js "integerOverflow", high);
      (js "uncheckedReturn", medium);
      (js "txOrigin", high);
      (js "unsecuredSelfDestruct", critical) ]
    key medium.

Definition text_reentrancy : jsstring :=
  js "Уязвимость повторного входа позволяет атакующему вызывать функцию контракта рекурсивно до завершения первого вызова.".
Definition text_integerOverflow : jsstring :=
  js "Переполнение целочисленного типа может привести к неожиданным значениям переменных.".
Definition text_uncheckedReturn : jsstring :=
  js "Необработанное возвращаемое значение может привести к неожиданному поведению контракта.".
Definition text_txOrigin : jsstring :=
  js "Использование tx.origin для аутентификации небезопасно и может привести к фишинговым атакам.".
Definition text_unsecuredSelfDestruct : jsstring :=
  js "Незащищенный вызов selfdestruct может позволить атакующему уничтожить контракт.".
Definition text_unknown : jsstring :=
  js "Неизвестная уязвимость, требуется ручной анализ.".

Definition getVulnerabilityDescription (key : jsstring) : jsstring :=
  lookup_or
    [ (js "reentrancy", text_reentrancy);
      (js "integerOverflow", text_integerOverflow);
      (js "uncheckedReturn", text_uncheckedReturn);
      (js "txOrigin", text_txOrigin);
      (js "unsecuredSelfDestruct", text_unsecuredSelfDestruct) ]
    key text_unknown.

Definition getVulnerabilityDescriptionByName (name : jsstring) : jsstring :=
  lookup_or
    [ (js "Reentrancy Vulnerability", text_reentrancy);
      (js "Integer Overflow", text_integerOverflow);
      (js "Unchecked Return Value", text_uncheckedReturn);
      (js "tx.origin Authentication", text_txOrigin);
      (js "Unsecured Self-Destruct", text_unsecuredSelfDestruct) ]
    name text_unknown.

Definition advice_reentrancy : jsstring :=
  js "Используйте паттерн Checks-Effects-Interactions или мьютекс для защиты от reentrancy атак.".
Definition advice_integerOverflow : jsstring :=
  js "Используйте библиотеку SafeMath для арифметических операций.".
Definition advice_uncheckedReturn : jsstring :=
  js "Всегда проверяйте возвращаемые значения низкоуровневых вызовов с помощью require().".
Definition advice_txOrigin : jsstring :=
  js "Используйте msg.sender вместо tx.origin для аутентификации.".
Definition advice_unsecuredSelfDestruct : jsstring :=
  js "Добавьте проверки доступа перед вызовом selfdestruct.".
Definition advice_unknown : jsstring :=
  js "Требуется ручной анализ и исправление.".

Definition getVulnerabilityRecommendation (key : jsstring) : jsstring :=
  lookup_or
    [ (js "reentrancy", advice_reentrancy);
      (js "integerOverflow", advice_integerOverflow);
      (js "uncheckedReturn", advice_uncheckedReturn);
      (js "txOrigin", advice_txOrigin);
      (js "unsecuredSelfDestruct", advice_unsecuredSelfDestruct) ]
    key advice_unknown.

Definition getVulnerabilityRecommendationByName (name : jsstring) : jsstring :=
  lookup_or
    [ (js "Reentrancy Vulnerability", advice_reentrancy);
      (js "Integer Overflow", advice_integerOverflow);
      (js "Unchecked Return Value", advice_uncheckedReturn);
      (js "tx.origin Authentication", advice_txOrigin);
      (js "Unsecured Self-Destruct", advice_unsecuredSelfDestruct) ]
    name advice_unknown.

(** [mapSeverity]: the model's severity string, 'medium' by default. *)
Definition mapSeverity (severity : jsstring) : Severity :=
  lookup_or
    [ (js "critical", critical); (js "high", high); (js "medium", medium);
      (js "low", low); (js "info", info) ]
    severity medium.

Definition mapSeverityToString (severity : Severity) : jsstring := severity_key severity.

(** *** The built-in scanner (the loop of [auditContract]) *)

(** [`VULN-${Date.now()}-${n}`]. *)
Definition vuln_id (stamp : N) (n : nat) : jsstring :=
  js "VULN-" ++ decimal stamp ++ js "-" ++ decimal (N.of_nat n).

(** [lines.slice(Math.max(0, i - 2), Math.min(lines.length, i + 3)).join('\n')]. *)
Definition snippet (lines : list jsstring) (i : nat) : jsstring :=
  join_lines
    (slice lines
           (Z.to_nat (Z.max 0 (Z.of_nat i - 2)))
           (Z.to_nat (Z.min (Z.of_nat (List.length lines)) (Z.of_nat i + 3)))).

Section Scan.

(** [now n]: what [Date.now()] reads when [n] findings have been pushed. *)
Variable now : nat -> N.
Variable patterns : list (jsstring * regex).
Variable lines : list jsstring.

(** The object pushed on a match of rule [vulnName] at line index [i]. *)
Definition finding (i : nat) (vulnName : jsstring) (count : nat) : Vulnerability :=
  {| id := vuln_id (now count) count;
     name := getVulnerabilityName vulnName;
     severity := getVulnerabilitySeverity vulnName;
     description := getVulnerabilityDescription vulnName;
     lineStart := Z.of_nat i + 1;
     lineEnd := Z.of_nat i + 1;
     codeSnippet := snippet lines i;
     recommendation := getVulnerabilityRecommendation vulnName |}.

(** The inner loop: every rule against one line. *)
Definition scanLine (i : nat) (line : jsstring) (found : list Vulnerability)
  : list Vulnerability :=
  fold_left
    (fun vulnerabilities (entry : jsstring * regex) =>
       let (vulnName, pattern) := entry in
       if pattern_test pattern line
       then vulnerabilities ++ [finding i vulnName (List.length vulnerabilities)]
       else vulnerabilities)
    patterns found.

(** The outer loop, from index [i] on; [rest] holds [lines[i..]]. *)
Fixpoint scanFrom (i : nat) (rest : list jsstring) (found : list Vulnerability)
  : list Vulnerability :=
  match rest with
  | [] => found
  | line :: rest' => scanFrom (S i) rest' (scanLine i line found)
  end.

End Scan.

(** The built-in scan of a contract text. *)
Definition scan (now : nat -> N) (contractCode : jsstring) : list Vulnerability :=
  let lines := split_lines contractCode in
  scanFrom now vulnerabilityPatterns lines 0 lines [].

(** *** The external model and the file system *)

Record ModelLine : Type := {
  line_number : Z;
  line : jsstring;
  context : jsstring
}.

Record ModelVulnerability : Type := {
  mv_name : jsstring;
  mv_severity : jsstring;
  mv_confidence : Q;
  mv_lines : list ModelLine
}.

(** What [JSON.parse(stdout)] may hold: the cast to [ModelAuditResult] is
    unchecked, so a property may be missing ([None]). *)
Record ModelAuditResult : Type := {
  is_vulnerable : bool;
  vulnerability_score : option Q;
  mr_vulnerabilities : option (list ModelVulnerability);
  features : list (jsstring * jsstring)
}.

(** The collaborators of the auditor.  A failing call is [None] / [inl]. *)
Record World : Type := {
  readFileSync : jsstring -> option jsstring;
  (* the bridge run with --action audit on a contract path: error or stdout *)
  exec_audit : jsstring -> jsstring + jsstring;
  JSON_parse : jsstring -> option ModelAuditResult;
  (* the bridge run with --action patch on a source text and a descriptor,
     temporary files included: error or stdout *)
  exec_patch : jsstring -> ModelVulnerability -> jsstring + jsstring;
  Date_now : nat -> N;
  bridge_path : jsstring
}.

Record ModelIntegration : Type := {
  pythonPath : jsstring;
  modelBridgePath : jsstring
}.

Record NeuroSolidityAuditor : Type := {
  initialized : bool;
  modelLoaded : bool;
  contractsDatabase : list jsstring;
  modelIntegration : option ModelIntegration
}.

Definition constructor : NeuroSolidityAuditor :=
  {| initialized := false; modelLoaded := false;
     contractsDatabase := []; modelIntegration := None |}.

(** [initialize], on the path where loading the contract database does
    not throw (the stub list is the one used without a data directory). *)
Definition initialize (w : World) (a : NeuroSolidityAuditor) : NeuroSolidityAuditor :=
  if initialized a then a
  else
    {| initialized := true;
       modelLoaded := modelLoaded a;
       contractsDatabase :=
         [js "ERC20.sol"; js "ERC721.sol"; js "Ownable.sol";
          js "SafeMath.sol"; js "Pausable.sol"];
       modelIntegration :=
         Some {| pythonPath := js "python"; modelBridgePath := bridge_path w |} |}.

Definition NOT_INITIALIZED : jsstring := js "NeuroSolidityAuditor не инициализирован".

(** The value [ModelIntegration.auditContract] returns from its catch block. *)
Definition failure_result : ModelAuditResult :=
  {| is_vulnerable := true;
     vulnerability_score := Some 1%Q;
     mr_vulnerabilities := Some [];
     features := [] |}.

(** [ModelIntegration.auditContract]: try exec and JSON.parse, catch all. *)
Definition model_auditContract (w : World) (m : ModelIntegration)
           (contractPath : jsstring) : ModelAuditResult :=
  match exec_audit w contractPath with
  | inr stdout =>
      match JSON_parse w stdout with
      | Some result => result
      | None => failure_result
      end
  | inl _ => failure_result
  end.

(** [ModelIntegration.generatePatch]: stdout, or the error as a comment. *)
Definition model_generatePatch (w : World) (m : ModelIntegration)
           (sourceCode : jsstring) (vulnerability : ModelVulnerability) : jsstring :=
  match exec_patch w sourceCode vulnerability with
  | inr stdout => stdout
  | inl error => js "// Ошибка при генерации патча: " ++ error
  end.

(** [Math.round] on an exact rational: half-way cases go up.  The
    floating-point rounding of the operand is not represented. *)
Definition Math_round (q : Q) : Z := Qfloor (q + (1 # 2))%Q.

Definition convert_vulnerability (w : World) (index : nat) (vuln : ModelVulnerability)
  : Vulnerability :=
  {| id := vuln_id (Date_now w index) index;
     name := mv_name vuln;
     severity := mapSeverity (mv_severity vuln);
     description := getVulnerabilityDescriptionByName (mv_name vuln);
     lineStart := match mv_lines vuln with l :: _ => line_number l | [] => 0 end;
     lineEnd := match mv_lines vuln with
                | _ :: _ => line_number (last (mv_lines vuln)
                              {| line_number := 0; line := []; context := [] |})
                | [] => 0
                end;
     codeSnippet := match mv_lines vuln with l :: _ => context l | [] => [] end;
     recommendation := getVulnerabilityRecommendationByName (mv_name vuln) |}.

Fixpoint map_index {A B} (f : nat -> A -> B) (index : nat) (l : list A) : list B :=
  match l with
  | [] => []
  | x :: r => f index x :: map_index f (S index) r
  end.

(** [convertModelAuditResult]; reading [.map] of a missing
    [vulnerabilities] throws a TypeError. *)
Definition convertModelAuditResult (w : World) (modelResult : ModelAuditResult)
           (contractPath : jsstring) : completion AuditResult :=
  match mr_vulnerabilities modelResult with
  | None => Throw (js "TypeError")
  | Some model_vulns =>
      let vulnerabilities := map_index (convert_vulnerability w) 0 model_vulns in
      let score :=
        match vulnerability_score modelResult with
        | Some v => Math_round ((1 - v) * 100)%Q
        | None => calculateSecurityScore vulnerabilities
        end in
      Return {| contractName := basename contractPath;
                contractPath := contractPath;
                vulnerabilities := vulnerabilities;
                score := score;
                timestamp := Date_now w (List.length vulnerabilities) |}
  end.

(** The built-in analyzer of [auditContract] (from [readFileSync] on). *)
Definition builtinAudit (w : World) (contractPath : jsstring) : completion AuditResult :=
  match readFileSync w contractPath with
  | None => Throw (js "ENOENT")
  | Some contractCode =>
      let vulnerabilities := scan (Date_now w) contractCode in
      Return {| contractName := basename contractPath;
                contractPath := contractPath;
                vulnerabilities := vulnerabilities;
                score := calculateSecurityScore vulnerabilities;
                timestamp := Date_now w (List.length vulnerabilities) |}
  end.

(** [NeuroSolidityAuditor.auditContract]. *)
Definition auditContract (w : World) (a : NeuroSolidityAuditor) (contractPath : jsstring)
  : completion AuditResult :=
  if negb (initialized a) then Throw NOT_INITIALIZED
  else
    match modelIntegration a with
    | Some m =>
        let modelResult := model_auditContract w m contractPath in
        match convertModelAuditResult w modelResult contractPath with
        | Return result => Return result
        | Throw _ => builtinAudit w contractPath
        end
    | None => builtinAudit w contractPath
    end.

(** *** The patch generator *)

(** [s.replace(r, template)] for a regex without the g flag whose group 1
    is the whole pattern. *)
Definition replace_regex (s : jsstring) (r : regex) (template : jsstring) : jsstring :=
  match exec_from true r None [] s with
  | Some (pre, matched, post) =>
      pre ++ GetSubstitution matched pre post [matched] template ++ post
  | None => s
  end.

(* /(\.\s*call\s*{.*value\s*:.*})/i *)
Definition reentrancy_call : regex :=
  seqs [word "."; Star CSpace; word "call"; Star CSpace; word "{"; Star CAny;
        word "value"; Star CSpace; word ":"; Star CAny; word "}"].

(* /(\+\+|\+=|=\s*\+)/i *)
Definition overflow_operator : regex :=
  Alt (word "++") (Alt (word "+=") (seqs [word "="; Star CSpace; word "+"])).

Definition reentrancy_template : jsstring :=
  js "// DEP Security Patch: Added reentrancy protection" ++ [NEWLINE]
  ++ js "    require(!_mutex, " ++ QUOTE ++ js "Reentrancy guard" ++ QUOTE ++ js ");" ++ [NEWLINE]
  ++ js "    _mutex = true;" ++ [NEWLINE]
  ++ js "    $1;" ++ [NEWLINE]
  ++ js "    _mutex = false;".

Definition safemath_template : jsstring :=
  js "// DEP Security Patch: Added SafeMath" ++ [NEWLINE]
  ++ js "    using SafeMath for uint256;" ++ [NEWLINE]
  ++ js "    // Replace with: value = value.add(amount);".

Definition manual_review : jsstring :=
  js "// DEP Security Patch: Please review this vulnerability manually" ++ [NEWLINE]
  ++ js "// ".

(** [lines[lineStart - 1]]; [undefined] (and then a TypeError) off the array. *)
Definition line_at (lines : list jsstring) (lineStart : Z) : option jsstring :=
  if lineStart - 1 <? 0 then None else nth_error lines (Z.to_nat (lineStart - 1)).

(** The built-in patch generator of [generatePatch] (from [readFileSync] on). *)
Definition builtinPatch (w : World) (vulnerability : Vulnerability)
           (contractPath : jsstring) : completion jsstring :=
  match readFileSync w contractPath with
  | None => Throw (js "ENOENT")
  | Some contractCode =>
      let lines := split_lines contractCode in
      if str_eqb (name vulnerability) (js "Reentrancy Vulnerability") then
        match line_at lines (lineStart vulnerability) with
        | Some l => Return (replace_regex l reentrancy_call reentrancy_template)
        | None => Throw (js "TypeError")
        end
      else if str_eqb (name vulnerability) (js "Integer Overflow") then
        match line_at lines (lineStart vulnerability) with
        | Some l => Return (replace_regex l overflow_operator safemath_template)
        | None => Throw (js "TypeError")
        end
      else Return (manual_review ++ recommendation vulnerability)
  end.

Definition first_line (s : jsstring) : jsstring := hd [] (split_lines s).

(** The descriptor [generatePatch] hands to the model. *)
Definition toModelVulnerability (vulnerability : Vulnerability) : ModelVulnerability :=
  {| mv_name := name vulnerability;
     mv_severity := mapSeverityToString (severity vulnerability);
     mv_confidence := (9 # 10)%Q;
     mv_lines := [ {| line_number := lineStart vulnerability;
                      line := first_line (codeSnippet vulnerability);
                      context := codeSnippet vulnerability |} ] |}.

(** [NeuroSolidityAuditor.generatePatch]. *)
Definition generatePatch (w : World) (a : NeuroSolidityAuditor)
           (vulnerability : Vulnerability) (contractPath : jsstring)
  : completion jsstring :=
  if negb (initialized a) then Throw NOT_INITIALIZED
  else
    match modelIntegration a with
    | Some m =>
        match readFileSync w contractPath with
        | Some contractCode =>
            let modelVulnerability := toModelVulnerability vulnerability in
            Return (model_generatePatch w m contractCode modelVulnerability)
        | None => builtinPatch w vulnerability contractPath
        end
    | None => builtinPatch w vulnerability contractPath
    end.

(** *** Test cases *)

(** A value of type [any], as far as test cases hold one. *)
#[warning="-register-all"]
Inductive any : Type :=
| undefined
| null
| boolean (b : bool)
| numeric (q : Q)
| bigint (z : Z)
| text (s : jsstring)
| array (items : list any)
| object (fields : list (jsstring * any)).

Record TestCase : Type := {
  tc_id : jsstring;
  tc_description : jsstring;
  inputs : list (jsstring * any);
  expectedOutputs : list (jsstring * any);
  edgeCase : bool
}.

Record ModelTestCase : Type := {
  mt_description : jsstring;
  mt_function : jsstring;
  params : list (jsstring * any);
  expected : jsstring;
  edge_case : bool;
  mt_vulnerability : option jsstring
}.

(** [`TEST-${Date.now()}-${n}`]. *)
Definition test_id (stamp : N) (n : nat) : jsstring :=
  js "TEST-" ++ decimal stamp ++ js "-" ++ decimal (N.of_nat n).

(** [ModelIntegration.generateTestCases]: [exec_test] stands for the
    temporary file, the bridge run with --action test and [JSON.parse] of
    its output ([None] when any of them throws); the catch block returns
    the empty array. *)
Definition model_generateTestCases (exec_test : jsstring -> option (list ModelTestCase))
           (sourceCode : jsstring) : list ModelTestCase :=
  match exec_test sourceCode with
  | Some cases => cases
  | None => []
  end.

Definition convert_test (now : nat -> N) (index : nat) (test : ModelTestCase) : TestCase :=
  {| tc_id := test_id (now index) index;
     tc_description := mt_description test;
     inputs := params test;
     expectedOutputs :=
       [ (js "success", boolean (str_eqb (expected test) (js "success")));
         (js "error",
          if str_eqb (expected test) (js "revert") then text (js "error") else undefined) ];
     edgeCase := edge_case test |}.

(** [convertModelTestCases]. *)
Definition convertModelTestCases (now : nat -> N) (modelTestCases : list ModelTestCase)
           (edgeCasesOnly : bool) : list TestCase :=
  let filteredTestCases :=
    if edgeCasesOnly then filter edge_case modelTestCases else modelTestCases in
  map_index (convert_test now) 0 filteredTestCases.

(** The example cases of the built-in generator; [now n] is the clock
    when [n] cases have been pushed. *)
Definition builtinTestCases (now : nat -> N) (edgeCasesOnly : bool) : list TestCase :=
  let testCases :=
    [ {| tc_id := js "TEST-" ++ decimal (now 0%nat) ++ js "-1";
         tc_description := js "Проверка переполнения целочисленного типа";
         inputs := [ (js "value", numeric (inject_Z 9007199254740991)) ];
         expectedOutputs := [ (js "success", boolean false);
                              (js "error", text (js "overflow")) ];
         edgeCase := true |};
      {| tc_id := js "TEST-" ++ decimal (now 1%nat) ++ js "-2";
         tc_description := js "Проверка на reentrancy атаку";
         inputs := [ (js "from", text (js "0xAttacker"));
                     (js "value", bigint 1000000000000000000) ];
         expectedOutputs := [ (js "success", boolean false);
                              (js "error", text (js "reentrancy")) ];
         edgeCase := true |} ] in
  if negb edgeCasesOnly then
    testCases ++
      [ {| tc_id := js "TEST-" ++ decimal (now 2%nat) ++ js "-3";
           tc_description := js "Стандартный перевод токенов";
           inputs := [ (js "from", text (js "0xSender"));
                       (js "to", text (js "0xReceiver"));
                       (js "value", numeric (inject_Z 100)) ];
           expectedOutputs := [ (js "success", boolean true);
                                (js "balance", numeric (inject_Z 100)) ];
           edgeCase := false |} ]
  else testCases.

(** The built-in generator of [generateTestCases] (from [readFileSync] on). *)
Definition builtinGenerate (w : World) (contractPath : jsstring) (edgeCasesOnly : bool)
  : completion (list TestCase) :=
  match readFileSync w contractPath with
  | None => Throw (js "ENOENT")
  | Some _ => Return (builtinTestCases (Date_now w) edgeCasesOnly)
  end.

(** [NeuroSolidityAuditor.generateTestCases]. *)
Definition generateTestCases (w : World)
           (exec_test : jsstring -> option (list ModelTestCase))
           (a : NeuroSolidityAuditor) (contractPath : jsstring) (edgeCasesOnly : bool)
  : completion (list TestCase) :=
  if negb (initialized a) then Throw NOT_INITIALIZED
  else
    match modelIntegration a with
    | Some m =>
        match readFileSync w contractPath with
        | Some contractCode =>
            let modelTestCases := model_generateTestCases exec_test contractCode in
            Return (convertModelTestCases (Date_now w) modelTestCases edgeCasesOnly)
        | None => builtinGenerate w contractPath edgeCasesOnly
        end
    | None => builtinGenerate w contractPath edgeCasesOnly
    end.

End Auditor.

(* ================================================================== *)
(** ** EthicalMirrorEngine                                            *)
(* ================================================================== *)

Module Mirror.

Inductive TransformationType : Type := ethical | security | optimization.

Record CodeTransformation : Type := {
  original : jsstring;
  transformed : jsstring;
  type : TransformationType;
  confidence : Z;
  description : jsstring
}.

Record TransformationResult : Type := {
  originalCode : jsstring;
  transformedCode : jsstring;
  transformations : list CodeTransformation;
  timestamp : Z;
  executionTime : Z
}.

(** [Map<string, string>]: entries in insertion order; [set] on a key
    already present overwrites its value where it stands. *)
Definition PatternMap := list (jsstring * jsstring).

Fixpoint map_set (m : PatternMap) (key value : jsstring) : PatternMap :=
  match m with
  | [] => [(key, value)]
  | (k, v) :: rest =>
      if str_eqb k key then (k, value) :: rest else (k, v) :: map_set rest key value
  end.

Definition set_all (m : PatternMap) (entries : list (string * string)) : PatternMap :=
  fold_left (fun m e => map_set m (js (fst e)) (js (snd e))) entries m.

Record EthicalMirrorEngine : Type := {
  initialized : bool;
  transformationPatterns : PatternMap;
  securityPatterns : PatternMap
}.

(** The constructor, [initTransformationPatterns] included. *)
Definition constructor : EthicalMirrorEngine :=
  {| initialized := false;
     transformationPatterns :=
       set_all []
         [ ("drain", "protect"); ("steal", "audit"); ("hack", "secure");
           ("exploit", "validate"); ("attack", "defend");
           ("vulnerability", "security"); ("scam", "verify");
           ("fraud", "authenticate") ]%string;
     securityPatterns :=
       set_all []
         [ ("tx.origin", "msg.sender"); ("selfdestruct", "secureDestruct");
           ("suicide", "secureDestruct"); ("call.value", "safeTransfer");
           ("assert", "require") ]%string |}.

(** [initialize]. *)
Definition initialize (e : EthicalMirrorEngine) : EthicalMirrorEngine :=
  if initialized e then e
  else
    {| initialized := true;
       transformationPatterns :=
         set_all (transformationPatterns e)
           [ ("криптоосушитель", "анти-драйнеровый щит"); ("взлом", "защита");
             ("обход", "проверка") ]%string;
       securityPatterns := securityPatterns e |}.

Definition NOT_INITIALIZED : jsstring := js "EthicalMirrorEngine не инициализирован".

(** [new RegExp(`\\b${original}\\b`, 'gi')]. *)
Definition ethical_regex (original : jsstring) : regex :=
  Seq WordBoundary (Seq (compile original) WordBoundary).

(** [new RegExp(original, 'g')]. *)
Definition security_regex (original : jsstring) : regex := compile original.

(** [`/* Ethical transformation: ${match} -> ${replacement} */ ${replacement}`]. *)
Definition ethical_annotation (matched replacement : jsstring) : jsstring :=
  js "/* Ethical transformation: " ++ matched ++ js " -> " ++ replacement
  ++ js " */ " ++ replacement.

Definition security_annotation (matched replacement : jsstring) : jsstring :=
  js "/* Security transformation: " ++ matched ++ js " -> " ++ replacement
  ++ js " */ " ++ replacement.

Definition ethical_record (matched replacement : jsstring) : CodeTransformation :=
  {| original := matched;
     transformed := replacement;
     type := ethical;
     confidence := 90;
     description :=
       js "Замена потенциально неэтичного термина " ++ QUOTE ++ matched ++ QUOTE
       ++ js " на этичный аналог " ++ QUOTE ++ replacement ++ QUOTE |}.

Definition security_record (matched replacement : jsstring) : CodeTransformation :=
  {| original := matched;
     transformed := replacement;
     type := security;
     confidence := 85;
     description :=
       js "Замена потенциально небезопасного паттерна " ++ QUOTE ++ matched ++ QUOTE
       ++ js " на безопасный аналог " ++ QUOTE ++ replacement ++ QUOTE |}.

(** The two variables the loops update. *)
Definition Pass : Type := (jsstring * list CodeTransformation)%type.

(** [matches.forEach(match => ...)]: each reported match replaces the
    first occurrence of its text in the current code. *)
Definition forEach_match (annotation : jsstring -> jsstring -> jsstring)
           (record : jsstring -> jsstring -> CodeTransformation)
           (replacement : jsstring) (matches : list jsstring) (st : Pass) : Pass :=
  fold_left
    (fun (st : Pass) matched =>
       (replace (fst st) matched (annotation matched replacement),
        snd st ++ [record matched replacement]))
    matches st.

(** The body of the first loop, for one entry of [transformationPatterns]. *)
Definition ethical_step (st : Pass) (entry : jsstring * jsstring) : Pass :=
  let (original, replacement) := entry in
  match match_g true (fst st) (ethical_regex original) with
  | Some matches => forEach_match ethical_annotation ethical_record replacement matches st
  | None => st
  end.

(** The body of the second loop, for one entry of [securityPatterns]. *)
Definition security_step (st : Pass) (entry : jsstring * jsstring) : Pass :=
  let (original, replacement) := entry in
  match match_g false (fst st) (security_regex original) with
  | Some matches => forEach_match security_annotation security_record replacement matches st
  | None => st
  end.

(** The three clock readings of one call. *)
Record Clock : Type := { startTime : Z; endTime : Z; date : Z }.

(** [ethicalMirror]. *)
Definition ethicalMirror (e : EthicalMirrorEngine) (clock : Clock) (code : jsstring)
  : completion TransformationResult :=
  if negb (initialized e) then Throw NOT_INITIALIZED
  else
    let st := fold_left ethical_step (transformationPatterns e) (code, []) in
    let st := fold_left security_step (securityPatterns e) st in
    Return {| originalCode := code;
              transformedCode := fst st;
              transformations := snd st;
              timestamp := date clock;
              executionTime := endTime clock - startTime clock |}.

Inductive IssueSeverity : Type := issue_high | issue_medium | issue_low.

Record Issue : Type := {
  term : jsstring;
  issue_severity : IssueSeverity;
  issue_description : jsstring
}.

Record EthicsAnalysis : Type := {
  ethicalScore : Z;
  issues : list Issue
}.

(** [list.includes(original)]. *)
Definition among (l : list string) (x : jsstring) : bool :=
  existsb (fun y => str_eqb (js y) x) l.

Definition term_severity (original : jsstring) : IssueSeverity :=
  if among ["drain"; "steal"; "hack"; "scam"; "fraud"]%string original then issue_high
  else if among ["exploit"; "attack"; "vulnerability"]%string original then issue_medium
  else issue_low.

Definition issue_step (code : jsstring) (issues : list Issue) (entry : jsstring * jsstring)
  : list Issue :=
  let original := fst entry in
  match match_g true code (ethical_regex original) with
  | Some _ =>
      issues ++
        [ {| term := original;
             issue_severity := term_severity original;
             issue_description :=
               js "Обнаружен потенциально неэтичный термин " ++ QUOTE ++ original ++ QUOTE |} ]
  | None => issues
  end.

Definition deduct (ethicalScore : Z) (issue : Issue) : Z :=
  match issue_severity issue with
  | issue_high => ethicalScore - 20
  | issue_medium => ethicalScore - 10
  | issue_low => ethicalScore - 5
  end.

(** [analyzeEthics]. *)
Definition analyzeEthics (e : EthicalMirrorEngine) (code : jsstring)
  : completion EthicsAnalysis :=
  if negb (initialized e) then Throw NOT_INITIALIZED
  else
    let issues := fold_left (issue_step code) (transformationPatterns e) [] in
    let ethicalScore := fold_left deduct issues 100 in
    let ethicalScore := Z.max 0 (Z.min 100 ethicalScore) in
    Return {| ethicalScore := ethicalScore; issues := issues |}.

(** [addTransformationPattern]. *)
Definition addTransformationPattern (e : EthicalMirrorEngine)
           (original replacement : jsstring) (kind : TransformationType)
  : completion unit * EthicalMirrorEngine :=
  if negb (initialized e) then (Throw NOT_INITIALIZED, e)
  else
    match kind with
    | ethical =>
        (Return tt,
         {| initialized := initialized e;
            transformationPatterns := map_set (transformationPatterns e) original replacement;
            securityPatterns := securityPatterns e |})
    | _ =>
        (Return tt,
         {| initialized := initialized e;
            transformationPatterns := transformationPatterns e;
            securityPatterns := map_set (securityPatterns e) original replacement |})
    end.

(** The initialized engine: constructed, then [initialize]d. *)
Definition engine : EthicalMirrorEngine := initialize constructor.

(** [transformedCode] of a completed call, for composing two runs. *)
Definition mirrored (e : EthicalMirrorEngine) (clock : Clock) (code : jsstring) : jsstring :=
  match ethicalMirror e clock code with
  | Return r => transformedCode r
  | Throw _ => code
  end.

Definition example : jsstring := js "function drainWallet() { steal(funds); }".

(** The stand-alone [ethical_mirror] of the technical proposal. *)
Definition ethical_mirror (code : jsstring) : jsstring :=
  replace (replace code (js "drain") (js "protect")) (js "steal") (js "audit").


Definition is_security (t : CodeTransformation) : bool :=
  match type t with security => true | _ => false end.

End Mirror.

(* ================================================================== *)
(** ** ProofOfHumanism                                                *)
(* ================================================================== *)

Module PoH.

Record Vote : Type := { validatorId : jsstring; vote : bool }.

Record EthicalThreshold : Type := {
  value : number;
  lastUpdated : Z;
  proposedBy : jsstring;
  votes : list Vote
}.

(** [SignaturePubkeyPair]: [signature] is a Buffer or [null]. *)
Record SignaturePubkeyPair : Type := {
  signature : option (list N);
  publicKey : jsstring
}.

(** A [web3.Transaction], as far as the validator looks at it: its
    [signatures] property ([None] when it is missing) and the text
    [JSON.stringify] gives for it. *)
Record Transaction : Type := {
  signatures : option (list SignaturePubkeyPair);
  JSON_stringify : jsstring
}.

Record EthicalTransaction : Type := {
  transaction : Transaction;
  ethicalScore : Z;
  humanismIndex : Z;
  validationResult : bool;
  validationReason : jsstring
}.

Record ProofOfHumanism : Type := {
  initialized : bool;
  connected : bool;
  ethicalThreshold : EthicalThreshold
}.

Definition any_of (words : list string) : regex :=
  match words with
  | [] => Empty
  | w :: rest => fold_left (fun r x => Alt r (word x)) rest (word w)
  end.

(** [ethicalPatterns], all with the i flag. *)
Definition ethicalPatterns : list (jsstring * regex) :=
  [ (js "donation", any_of ["donate"; "charity"; "support"]%string);
    (js "community", any_of ["community"; "ecosystem"; "public"]%string);
    (js "transparency", any_of ["transparent"; "open"; "visible"]%string) ].

(** [unethicalPatterns], all with the i flag. *)
Definition unethicalPatterns : list (jsstring * regex) :=
  [ (js "drain", any_of ["drain"; "steal"; "hack"]%string);
    (js "attack", any_of ["attack"; "exploit"; "vulnerability"]%string);
    (js "scam", any_of ["scam"; "fraud"; "fake"]%string) ].

(** The constructor; [created] is the clock reading. *)
Definition constructor (created : Z) : ProofOfHumanism :=
  {| initialized := false;
     connected := false;
     ethicalThreshold :=
       {| value := of_Z 70; lastUpdated := created;
          proposedBy := js "DEP Framework"; votes := [] |} |}.

(** [loadEthicalThreshold]. *)
Definition loadEthicalThreshold (loaded : Z) (p : ProofOfHumanism) : ProofOfHumanism :=
  {| initialized := initialized p;
     connected := connected p;
     ethicalThreshold :=
       {| value := of_Z 75; lastUpdated := loaded;
          proposedBy := js "DAO Governance";
          votes := [ {| validatorId := js "validator1"; vote := true |};
                     {| validatorId := js "validator2"; vote := true |};
                     {| validatorId := js "validator3"; vote := false |};
                     {| validatorId := js "validator4"; vote := true |} ] |} |}.

(** [initialize]. *)
Definition initialize (loaded : Z) (p : ProofOfHumanism) : ProofOfHumanism :=
  if initialized p then p
  else
    let p := {| initialized := initialized p; connected := true;
                ethicalThreshold := ethicalThreshold p |} in
    let p := loadEthicalThreshold loaded p in
    {| initialized := true; connected := connected p;
       ethicalThreshold := ethicalThreshold p |}.

Definition NOT_INITIALIZED : jsstring := js "ProofOfHumanism не инициализирован".
Definition OUT_OF_RANGE : jsstring := js "Порог этичности должен быть в диапазоне 0-100".

(** [hasLargeAmounts]: /\d{10,}/ on the serialized transaction. *)
Definition hasLargeAmounts (tx : Transaction) : bool :=
  test false (AtLeast 10 CDigit) (JSON_stringify tx).

(** [involvesEthicalAddresses]. *)
Definition involvesEthicalAddresses (tx : Transaction) : bool :=
  existsb (fun addr => includes (JSON_stringify tx) (js addr))
          ["CharityWallet123"; "DonationAddress456"; "CommunityFund789"]%string.

(** [calculateHumanismIndex]. *)
Definition calculateHumanismIndex (tx : Transaction) : Z :=
  let txString := JSON_stringify tx in
  let score := 50 in
  let score :=
    fold_left (fun score (entry : jsstring * regex) =>
                 if test true (snd entry) txString then score + 10 else score)
              ethicalPatterns score in
  let score :=
    fold_left (fun score (entry : jsstring * regex) =>
                 if test true (snd entry) txString then score - 20 else score)
              unethicalPatterns score in
  let score := if hasLargeAmounts tx then score - 15 else score in
  let score := if involvesEthicalAddresses tx then score + 15 else score in
  Z.max 0 (Z.min 100 score).

(** [cryptographicVerify]. *)
Definition cryptographicVerify (tx : Transaction) : bool :=
  match signatures tx with
  | None => false
  | Some sigs =>
      if Nat.eqb (List.length sigs) 0 then false
      else forallb (fun sig => match signature sig with Some _ => true | None => false end)
                   sigs
  end.

Definition REASON_OK : jsstring :=
  js "Транзакция соответствует этическим и криптографическим требованиям".

Definition reason (isValid : bool) : jsstring :=
  js "Транзакция "
  ++ (if negb isValid then js "не соответствует этическим требованиям"
      else js "криптографически некорректна").

(** [validateTransaction]. *)
Definition validateTransaction (p : ProofOfHumanism) (tx : Transaction)
  : completion EthicalTransaction :=
  if negb (initialized p) then Throw NOT_INITIALIZED
  else
    let humanismIndex := calculateHumanismIndex tx in
    let isValid := gt (of_Z humanismIndex) (value (ethicalThreshold p)) in
    let isCryptographicallyValid := cryptographicVerify tx in
    let validationResult := isValid && isCryptographicallyValid in
    Return {| transaction := tx;
              ethicalScore := humanismIndex;
              humanismIndex := humanismIndex;
              validationResult := validationResult;
              validationReason := if validationResult then REASON_OK else reason isValid |}.

(** [proposeNewThreshold]: the outcome and the component afterwards. *)
Definition proposeNewThreshold (p : ProofOfHumanism) (created : Z)
           (proposerId : jsstring) (newThreshold : number)
  : completion EthicalThreshold * ProofOfHumanism :=
  if negb (initialized p) then (Throw NOT_INITIALIZED, p)
  else if lt newThreshold (of_Z 0) || gt newThreshold (of_Z 100)
  then (Throw OUT_OF_RANGE, p)
  else (Return {| value := newThreshold; lastUpdated := created;
                  proposedBy := proposerId; votes := [] |}, p).

(** [getEthicalThreshold]. *)
Definition getEthicalThreshold (p : ProofOfHumanism) : completion EthicalThreshold :=
  if negb (initialized p) then Throw NOT_INITIALIZED
  else Return (ethicalThreshold p).

(** [updateEthicalThreshold]. *)
Definition updateEthicalThreshold (p : ProofOfHumanism) (newThreshold : EthicalThreshold)
  : completion unit * ProofOfHumanism :=
  if negb (initialized p) then (Throw NOT_INITIALIZED, p)
  else (Return tt,
        {| initialized := initialized p; connected := connected p;
           ethicalThreshold := newThreshold |}).

(** The stand-alone [validate_transaction] of the technical proposal: a
    component is constructed on the spot and asked for its threshold. *)
Definition validate_transaction (created : Z) (tx : Transaction) : completion bool :=
  let poh := constructor created in
  let ethicalScore := calculateHumanismIndex tx in
  match getEthicalThreshold poh with
  | Throw message => Throw message
  | Return threshold =>
      Return (gt (of_Z ethicalScore) (value threshold) && cryptographicVerify tx)
  end.

End PoH.

(* ================================================================== *)
(** ** The statements of the specification, and the scenarios used     *)
(* ================================================================== *)

Module Spec.

Import Auditor.

(** The severity weights as the specification lists them. *)
Definition weight (s : Severity) : Z :=
  match s with
  | critical => 30
  | high => 20
  | medium => 10
  | low => 5
  | info => 1
  end.

(** The sum of the weights over a list of findings. *)
Fixpoint penalty (F : list Vulnerability) : Z :=
  match F with
  | [] => 0
  | v :: F' => weight (severity v) + penalty F'
  end.

(** The lines with indices max(0,i-2) through min(lastIndex,i+2), both
    included. *)
Definition window (lines : list jsstring) (i : nat) : list jsstring :=
  let first := Z.to_nat (Z.max 0 (Z.of_nat i - 2)) in
  let last := Z.to_nat (Z.min (Z.of_nat (List.length lines) - 1) (Z.of_nat i + 2)) in
  map (fun j => nth j lines []) (seq first (S last - first)).

(** A finding located at the line of 0-based index [i]. *)
Definition at_line (i : nat) (f : Vulnerability) : bool :=
  lineStart f =? Z.of_nat i + 1.

(** A finding reported for the rule registered under [key]. *)
Definition of_rule (key : jsstring) (f : Vulnerability) : bool :=
  str_eqb (name f) (getVulnerabilityName key).

(** One finding per rule that matches the line, in registry order,
    numbered from [count] on. *)
Fixpoint line_findings (now : nat -> N) (lines : list jsstring) (i : nat)
         (line : jsstring) (patterns : list (jsstring * regex)) (count : nat)
  : list Vulnerability :=
  match patterns with
  | [] => []
  | (vulnName, pattern) :: rest =>
      if pattern_test pattern line
      then finding now lines i vulnName count
             :: line_findings now lines i line rest (S count)
      else line_findings now lines i line rest count
  end.

(** The findings of the lines [rest], which start at index [i]. *)
Fixpoint all_findings (now : nat -> N) (patterns : list (jsstring * regex))
         (lines : list jsstring) (i : nat) (rest : list jsstring) (count : nat)
  : list Vulnerability :=
  match rest with
  | [] => []
  | line :: rest' =>
      let here := line_findings now lines i line patterns count in
      here ++ all_findings now patterns lines (S i) rest' (count + List.length here)
  end.

(** "Strictly exceeds", for an integer index against a stored threshold. *)
Definition exceeds (index : Z) (threshold : number) : Prop :=
  match threshold with
  | Num q => (q < inject_Z index)%Q
  | NegInfinity => True
  | PosInfinity => False
  | NaN => False
  end.

(** "Equals the threshold exactly". *)
Definition equals (index : Z) (threshold : number) : Prop :=
  match threshold with
  | Num q => (q == inject_Z index)%Q
  | _ => False
  end.

(** A term occurring in a text in any letter case, whatever surrounds it. *)
Fixpoint starts_ignoring_case (p s : jsstring) : bool :=
  match p, s with
  | [], _ => true
  | x :: p', y :: s' =>
      unit_eqb (Canonicalize x) (Canonicalize y) && starts_ignoring_case p' s'
  | _ :: _, [] => false
  end.

Fixpoint occurs_ignoring_case (p s : jsstring) : bool :=
  starts_ignoring_case p s
  || match s with [] => false | _ :: s' => occurs_ignoring_case p s' end.

(** A threshold below 0 or above 100. *)
Definition out_of_range (t : number) : Prop :=
  match t with
  | Num q => (q < 0)%Q \/ (100 < q)%Q
  | NegInfinity => True
  | PosInfinity => True
  | NaN => False
  end.

(** A threshold in [0,100]. *)
Definition within_range (t : number) : Prop :=
  match t with
  | Num q => (0 <= q)%Q /\ (q <= 100)%Q
  | _ => False
  end.

End Spec.

Module Scenario.

Import Auditor.

Definition contract : jsstring := js "contracts/Victim.sol".

Definition source : jsstring := js "selfdestruct(payable(owner));".

(** The bridge process cannot be run. *)
Definition failing_model : World :=
  {| readFileSync := fun _ => Some source;
     exec_audit := fun _ => inl (js "Error: Command failed: python");
     JSON_parse := fun _ => None;
     exec_patch := fun _ _ => inl (js "Error: Command failed: python");
     Date_now := fun _ => 0%N;
     bridge_path := js "model/model_bridge.py" |}.

(** The bridge process prints text that is not JSON. *)
Definition garbled_model : World :=
  {| readFileSync := fun _ => Some source;
     exec_audit := fun _ => inr (js "Traceback (most recent call last):");
     JSON_parse := fun _ => None;
     exec_patch := fun _ _ => inl (js "Error: Command failed: python");
     Date_now := fun _ => 0%N;
     bridge_path := js "model/model_bridge.py" |}.

(** The bridge process answers a patch request with a line of its own. *)
Definition answering_model : World :=
  {| readFileSync := fun _ => Some source;
     exec_audit := fun _ => inl (js "Error: Command failed: python");
     JSON_parse := fun _ => None;
     exec_patch := fun _ _ => inr (js "// patched by the model");
     Date_now := fun _ => 0%N;
     bridge_path := js "model/model_bridge.py" |}.

(** The finding the built-in scan reports on [source]. *)
Definition self_destruct_finding : Vulnerability :=
  {| id := js "VULN-0-0";
     name := js "Unsecured Self-Destruct";
     severity := critical;
     description := text_unsecuredSelfDestruct;
     lineStart := 1;
     lineEnd := 1;
     codeSnippet := source;
     recommendation := advice_unsecuredSelfDestruct |}.

(** A finding whose name the patch switch does not list. *)
Definition unchecked_return : Vulnerability :=
  {| id := js "VULN-0-0";
     name := js "Unchecked Return Value";
     severity := medium;
     description := text_uncheckedReturn;
     lineStart := 1;
     lineEnd := 1;
     codeSnippet := source;
     recommendation := advice_uncheckedReturn |}.

(** The withdraw example: a value-carrying low-level call on one line. *)
Definition withdraw : jsstring :=
  js "function withdraw(){ (bool s,) = msg.sender.call{value:amount}("
  ++ QUOTE ++ QUOTE ++ js "); }".

(** Three lines; the second matches two rules, the third one rule. *)
Definition three_lines : jsstring :=
  js "contract C {" ++ [NEWLINE]
  ++ js "  total += tx.origin.balance;" ++ [NEWLINE]
  ++ js "  selfdestruct(owner); }".

(** The bridge prints JSON that parses but carries no findings array. *)
Definition shapeless_model : World :=
  {| readFileSync := fun _ => Some source;
     exec_audit := fun _ => inr (js "{}");
     JSON_parse := fun _ => Some {| is_vulnerable := false;
                                    vulnerability_score := None;
                                    mr_vulnerabilities := None;
                                    features := [] |};
     exec_patch := fun _ _ => inl (js "Error: Command failed: python");
     Date_now := fun _ => 0%N;
     bridge_path := js "model/model_bridge.py" |}.

(** No contract file can be read and the bridge process cannot be run. *)
Definition missing_file : World :=
  {| readFileSync := fun _ => None;
     exec_audit := fun _ => inl (js "Error: Command failed: python");
     JSON_parse := fun _ => None;
     exec_patch := fun _ _ => inl (js "Error: Command failed: python");
     Date_now := fun _ => 0%N;
     bridge_path := js "model/model_bridge.py" |}.





(** An overflow descriptor that points past the end of a one-line file. *)
Definition misplaced : Vulnerability :=
  {| id := js "VULN-0-0";
     name := js "Integer Overflow";
     severity := high;
     description := text_integerOverflow;
     lineStart := 7;
     lineEnd := 7;
     codeSnippet := source;
     recommendation := advice_integerOverflow |}.

(** Two cases answered by the model: an edge case and an ordinary one. *)
Definition model_cases : list ModelTestCase :=
  [ {| mt_description := js "withdraw more than the balance";
       mt_function := js "withdraw";
       params := [ (js "amount", numeric (inject_Z 1000)) ];
       expected := js "revert";
       edge_case := true;
       mt_vulnerability := Some (js "Reentrancy Vulnerability") |};
    {| mt_description := js "deposit one token";
       mt_function := js "deposit";
       params := [ (js "amount", numeric (inject_Z 1)) ];
       expected := js "success";
       edge_case := false;
       mt_vulnerability := None |} ].

(** A model answer with two findings, the second of a kind and severity
    the auditor does not know, and a vulnerability score of 3/4. *)
Definition model_answer : ModelAuditResult :=
  {| is_vulnerable := true;
     vulnerability_score := Some (3 # 4)%Q;
     mr_vulnerabilities :=
       Some [ {| mv_name := js "Integer Overflow";
                 mv_severity := js "high";
                 mv_confidence := (9 # 10)%Q;
                 mv_lines := [ {| line_number := 2;
                                  line := js "  total += tx.origin.balance;";
                                  context := three_lines |} ] |};
              {| mv_name := js "Timestamp Dependence";
                 mv_severity := js "warning";
                 mv_confidence := (1 # 2)%Q;
                 mv_lines := [] |} ];
     features := [] |}.

End Scenario.

Module MatcherSpec.

(** A run of the matcher that finds a match. *)
Definition succeeds {A} (o : option A) : Prop := o <> None.




(** The whole-word, case-blind pattern of an ethical term finds a match. *)
Definition found (code original : jsstring) : bool :=
  match match_g true code (Mirror.ethical_regex original) with
  | Some _ => true
  | None => false
  end.

(** The table [addTransformationPattern] writes to for a kind, and the
    other one. *)
Definition written_table (kind : Mirror.TransformationType)
           (e : Mirror.EthicalMirrorEngine) : Mirror.PatternMap :=
  match kind with
  | Mirror.ethical => Mirror.transformationPatterns e
  | _ => Mirror.securityPatterns e
  end.

Definition other_table (kind : Mirror.TransformationType)
           (e : Mirror.EthicalMirrorEngine) : Mirror.PatternMap :=
  match kind with
  | Mirror.ethical => Mirror.securityPatterns e
  | _ => Mirror.transformationPatterns e
  end.

(** No string occurs twice in the list. *)
Fixpoint distinct (l : list jsstring) : bool :=
  match l with
  | [] => true
  | x :: rest => negb (existsb (str_eqb x) rest) && distinct rest
  end.

End MatcherSpec.

(* ================================================================== *)
(** ** Facts about strings                                             *)
(* ================================================================== *)

Module JSFacts.

Lemma str_eqb_eq (a b : jsstring) : str_eqb a b = true <-> a = b.
Proof.
  revert b; induction a as [|x a IH]; intros [|y b]; simpl;
    try (split; [discriminate|discriminate]); [tauto|].
  unfold unit_eqb. rewrite andb_true_iff, N.eqb_eq, IH.
  split; [intros [-> ->]; reflexivity|intros E; injection E; auto].
Qed.

Lemma str_eqb_refl (a : jsstring) : str_eqb a a = true.
Proof. apply str_eqb_eq. reflexivity. Qed.

Lemma str_eqb_neq (a b : jsstring) : a <> b -> str_eqb a b = false.
Proof.
  intros H. destruct (str_eqb a b) eqn:E; [|reflexivity].
  apply str_eqb_eq in E. contradiction.
Qed.

Lemma startsWith_app (p s : jsstring) : startsWith p (p ++ s) = true.
Proof.
  induction p as [|x p IH]; simpl; [reflexivity|].
  unfold unit_eqb. rewrite N.eqb_refl. exact IH.
Qed.

(** A text includes each of its suffixes. *)
Lemma includes_suffix (a b : jsstring) : includes (a ++ b) b = true.
Proof.
  induction a as [|x a IH].
  - simpl. destruct b as [|y b]; simpl.
    + reflexivity.
    + pose proof (startsWith_app (y :: b) []) as H. rewrite app_nil_r in H.
      simpl in H. rewrite H. reflexivity.
  - simpl. rewrite IH. apply orb_true_r.
Qed.

End JSFacts.

(* ================================================================== *)
(** ** Scorer                                                          *)
(* ================================================================== *)

Module ScorerProofs.

Import Auditor Spec.

Lemma weight_lookup (s : Severity) :
  lookup_or severityWeights (severity_key s) 0 = weight s.
Proof. destruct s; reflexivity. Qed.

Lemma weight_pos (s : Severity) : 1 <= weight s.
Proof. destruct s; simpl; lia. Qed.

Lemma penalty_nonneg (F : list Vulnerability) : 0 <= penalty F.
Proof.
  induction F as [|v F IH]; simpl; [lia|].
  pose proof (weight_pos (severity v)); lia.
Qed.

Lemma penalty_pos (F : list Vulnerability) : F <> [] -> 1 <= penalty F.
Proof.
  destruct F as [|v F]; [congruence|]; intros _; simpl.
  pose proof (weight_pos (severity v)); pose proof (penalty_nonneg F); lia.
Qed.

Lemma penalty_app (F G : list Vulnerability) : penalty (F ++ G) = penalty F + penalty G.
Proof. induction F as [|v F IH]; simpl; [reflexivity|rewrite IH; lia]. Qed.

(** The running total of the loop is the starting value plus the sum. *)
Lemma totalPenalty_loop (F : list Vulnerability) (start : Z) :
  fold_left
    (fun totalPenalty vuln =>
       totalPenalty + lookup_or severityWeights (severity_key (severity vuln)) 0)
    F start
  = start + penalty F.
Proof.
  revert start; induction F as [|v F IH]; intros start; simpl; [lia|].
  rewrite IH, weight_lookup; lia.
Qed.

Lemma score_formula (F : list Vulnerability) :
  calculateSecurityScore F
  = match F with [] => 100 | _ :: _ => 100 - Z.min 100 (penalty F) end.
Proof.
  unfold calculateSecurityScore.
  destruct F as [|v F]; [reflexivity|].
  cbn [List.length Nat.eqb]. rewrite totalPenalty_loop. lia.
Qed.

(** C1.  The scorer is a pure function of the findings: 100 on the empty
    list, otherwise 100 minus the sum of the severity weights
    (critical 30, high 20, medium 10, low 5, info 1) capped at 100.  The
    score stays within 0..100, is 100 exactly for the empty list, and
    does not grow when findings are appended.  [Vulnerability.severity]
    admits the five severities only, so no other weight arises. *)
Theorem calculateSecurityScore_spec (F : list Vulnerability) :
  calculateSecurityScore F
    = match F with [] => 100 | _ :: _ => 100 - Z.min 100 (penalty F) end
  /\ 0 <= calculateSecurityScore F <= 100
  /\ (calculateSecurityScore F = 100 <-> F = [])
  /\ (forall G, calculateSecurityScore (F ++ G) <= calculateSecurityScore F).
Proof.
  split; [apply score_formula|].
  assert (Hb : forall H, 0 <= calculateSecurityScore H <= 100).
  { intros H. rewrite score_formula. destruct H as [|v H]; [lia|].
    pose proof (penalty_nonneg (v :: H)). lia. }
  split; [apply Hb|]. split.
  - rewrite score_formula. destruct F as [|v F]; [tauto|].
    pose proof (penalty_pos (v :: F)) as Hp.
    split; [|discriminate]. intros E.
    assert (1 <= penalty (v :: F)) by (apply Hp; discriminate). lia.
  - intros G. destruct F as [|v F].
    + rewrite (score_formula []). apply Hb.
    + rewrite !score_formula. change ((v :: F) ++ G) with (v :: (F ++ G)).
      cbv iota. change (v :: (F ++ G)) with ((v :: F) ++ G).
      rewrite penalty_app. pose proof (penalty_nonneg G). lia.
Qed.

End ScorerProofs.

(* ================================================================== *)
(** ** Proof of humanism                                               *)
(* ================================================================== *)

Module PoHProofs.

Import PoH Spec.

Lemma Qltb_true (a b : Q) : Qltb a b = true <-> (a < b)%Q.
Proof.
  unfold Qltb. rewrite negb_true_iff.
  destruct (Qle_bool b a) eqn:E.
  - apply Qle_bool_iff in E. split; [discriminate|].
    intros H. exfalso. apply (Qlt_not_le _ _ H E).
  - split; [intros _|reflexivity].
    apply Qnot_le_lt. intros H. apply Qle_bool_iff in H. congruence.
Qed.

Lemma gt_exceeds (index : Z) (t : number) :
  gt (of_Z index) t = true <-> exceeds index t.
Proof.
  destruct t; simpl; try (split; [discriminate|tauto]).
  - split; auto.
  - apply Qltb_true.
Qed.

Lemma out_of_range_test (t : number) :
  lt t (of_Z 0) || gt t (of_Z 100) = true <-> out_of_range t.
Proof.
  destruct t; simpl; try tauto.
  - split; [discriminate|tauto].
  - rewrite orb_true_iff, !Qltb_true. reflexivity.
Qed.

Lemma within_range_test (t : number) :
  within_range t -> lt t (of_Z 0) || gt t (of_Z 100) = false.
Proof.
  intros H. destruct (lt t (of_Z 0) || gt t (of_Z 100)) eqn:E; [|reflexivity].
  apply out_of_range_test in E. destruct t; simpl in *; try tauto.
  destruct H as [H0 H1], E as [E|E]; exfalso.
  - apply (Qlt_not_le _ _ E H0).
  - apply (Qlt_not_le _ _ E H1).
Qed.

(** C5.  On an initialized component, proposing a threshold below 0 or
    above 100 fails with the range error and leaves the component, and so
    the threshold [getEthicalThreshold] reports, as it was; proposing a
    threshold within 0..100 succeeds with a proposal of that value. *)
Theorem proposeNewThreshold_range
        (p : ProofOfHumanism) (created : Z) (proposerId : jsstring) (t : number) :
  initialized p = true ->
  (out_of_range t ->
     fst (proposeNewThreshold p created proposerId t) = Throw OUT_OF_RANGE
     /\ snd (proposeNewThreshold p created proposerId t) = p
     /\ getEthicalThreshold (snd (proposeNewThreshold p created proposerId t))
        = getEthicalThreshold p
     /\ getEthicalThreshold p = Return (ethicalThreshold p))
  /\ (within_range t ->
        exists proposal,
          fst (proposeNewThreshold p created proposerId t) = Return proposal
          /\ value proposal = t
          /\ proposedBy proposal = proposerId
          /\ snd (proposeNewThreshold p created proposerId t) = p).
Proof.
  intros Hi. unfold proposeNewThreshold, getEthicalThreshold. rewrite Hi.
  cbn [negb]. split.
  - intros Ho. apply out_of_range_test in Ho. rewrite Ho.
    cbn [fst snd]. rewrite Hi. cbn [negb]. auto.
  - intros Hr. rewrite (within_range_test _ Hr). cbn [fst snd].
    eexists. repeat split.
Qed.

Lemma proposeNewThreshold_range_witness :
  initialized (initialize 0 (constructor 0)) = true
  /\ fst (proposeNewThreshold (initialize 0 (constructor 0)) 1 (js "TestProposer") (of_Z 150))
     = Throw OUT_OF_RANGE
  /\ fst (proposeNewThreshold (initialize 0 (constructor 0)) 1 (js "TestProposer") (of_Z (-5)))
     = Throw OUT_OF_RANGE
  /\ exists proposal,
       fst (proposeNewThreshold (initialize 0 (constructor 0)) 1 (js "TestProposer") (of_Z 85))
       = Return proposal.
Proof.
  split; [reflexivity|].
  split; [|split].
  - apply (proposeNewThreshold_range (initialize 0 (constructor 0)) 1
             (js "TestProposer") (of_Z 150) eq_refl).
    simpl. right. reflexivity.
  - apply (proposeNewThreshold_range (initialize 0 (constructor 0)) 1
             (js "TestProposer") (of_Z (-5)) eq_refl).
    simpl. left. reflexivity.
  - destruct (proposeNewThreshold_range (initialize 0 (constructor 0)) 1
                (js "TestProposer") (of_Z 85) eq_refl) as [_ H].
    destruct H as [proposal [H _]].
    + simpl. split; discriminate.
    + exists proposal. exact H.
Defined.

Lemma cryptographicVerify_true (tx : Transaction) :
  cryptographicVerify tx = true
  <-> exists sigs, signatures tx = Some sigs /\ sigs <> []
                   /\ Forall (fun sig => signature sig <> None) sigs.
Proof.
  unfold cryptographicVerify. destruct (signatures tx) as [sigs|].
  - destruct sigs as [|s0 sigs].
    + simpl. split; [discriminate|]. intros [l [E [N _]]].
      injection E as <-. congruence.
    + cbn [List.length Nat.eqb]. rewrite forallb_forall, <- Forall_forall.
      split.
      * intros H. exists (s0 :: sigs). repeat split; [discriminate|].
        eapply Forall_impl; [|exact H]. intros sig Hs. cbv beta in Hs.
        destruct (signature sig); [discriminate|discriminate Hs].
      * intros [l [E [_ H]]]. injection E as <-.
        eapply Forall_impl; [|exact H]. intros sig Hs. cbv beta in Hs.
        destruct (signature sig); [reflexivity|congruence].
  - split; [discriminate|]. intros [l [E _]]. discriminate.
Qed.

Lemma equals_not_exceeds (index : Z) (t : number) :
  equals index t -> ~ exceeds index t.
Proof.
  destruct t; simpl; try tauto.
  intros E L. rewrite E in L. apply (Qlt_irrefl _ L).
Qed.

(** C9.  On an initialized component [validateTransaction] returns, for
    every transaction, a result whose [validationResult] is true exactly
    when the computed humanism index strictly exceeds the stored
    threshold and the signature list is present, non-empty and free of
    null signatures.  An index equal to the threshold is rejected, and so
    is a transaction without signatures, whatever its index. *)
Theorem validateTransaction_iff (p : ProofOfHumanism) (tx : Transaction) :
  initialized p = true ->
  exists r,
    validateTransaction p tx = Return r
    /\ humanismIndex r = calculateHumanismIndex tx
    /\ (validationResult r = true
        <-> exceeds (humanismIndex r) (value (ethicalThreshold p))
            /\ exists sigs, signatures tx = Some sigs /\ sigs <> []
                            /\ Forall (fun sig => signature sig <> None) sigs)
    /\ (equals (humanismIndex r) (value (ethicalThreshold p))
        -> validationResult r = false)
    /\ (signatures tx = Some [] -> validationResult r = false).
Proof.
  intros Hi. unfold validateTransaction. rewrite Hi. cbn [negb].
  eexists. split; [reflexivity|]. cbn [humanismIndex validationResult].
  split; [reflexivity|].
  assert (Hiff : gt (of_Z (calculateHumanismIndex tx)) (value (ethicalThreshold p))
                 && cryptographicVerify tx = true
                 <-> exceeds (calculateHumanismIndex tx) (value (ethicalThreshold p))
                     /\ exists sigs, signatures tx = Some sigs /\ sigs <> []
                          /\ Forall (fun sig => signature sig <> None) sigs).
  { rewrite andb_true_iff, gt_exceeds, cryptographicVerify_true. reflexivity. }
  split; [exact Hiff|]. split.
  - intros E. apply not_true_is_false. intros T. apply Hiff in T.
    exact (equals_not_exceeds _ _ E (proj1 T)).
  - intros E. apply not_true_is_false. intros T. apply Hiff in T.
    destruct T as [_ [sigs [E' [N _]]]]. rewrite E in E'. injection E' as <-.
    congruence.
Qed.

(** A signed transaction whose index, 50 + 10 + 15, meets the default
    threshold of 75 without exceeding it. *)
Lemma validateTransaction_iff_witness :
  initialized (initialize 0 (constructor 0)) = true
  /\ exists r,
       validateTransaction (initialize 0 (constructor 0))
         {| signatures := Some [ {| signature := Some [1%N]; publicKey := js "k" |} ];
            JSON_stringify := js "{to:CharityWallet123}" |} = Return r
       /\ humanismIndex r = 75
       /\ validationResult r = false.
Proof.
  split; [reflexivity|].
  destruct (validateTransaction_iff (initialize 0 (constructor 0))
              {| signatures := Some [ {| signature := Some [1%N]; publicKey := js "k" |} ];
                 JSON_stringify := js "{to:CharityWallet123}" |} eq_refl)
    as [r [E [Hh [_ [Heq _]]]]].
  exists r. split; [exact E|]. split.
  - rewrite Hh. reflexivity.
  - apply Heq. rewrite Hh. reflexivity.
Defined.

End PoHProofs.

(* ================================================================== *)
(** ** Ethical mirror                                                  *)
(* ================================================================== *)

Module MirrorProofs.

Import Mirror Spec.





(** The result always carries the input as [originalCode]. *)
Lemma ethicalMirror_originalCode (e : EthicalMirrorEngine) (clock : Clock) (code : jsstring) :
  initialized e = true ->
  exists r, ethicalMirror e clock code = Return r /\ originalCode r = code.
Proof.
  intros Hi. unfold ethicalMirror. rewrite Hi. cbn [negb]. eexists. split; reflexivity.
Qed.

(** C3.  On "function drainWallet() { steal(funds); }" the initialized
    analyzer returns score 80 and a single issue, for "steal".  The text
    holds "drain" only inside "drainWallet", where the pattern
    \bdrain\b finds nothing, so no issue for "drain" is reported. *)
Theorem analyzeEthics_example :
  analyzeEthics engine example
  = Return {| ethicalScore := 80;
              issues :=
                [ {| term := js "steal";
                     issue_severity := issue_high;
                     issue_description :=
                       js "Обнаружен потенциально неэтичный термин "
                       ++ QUOTE ++ js "steal" ++ QUOTE |} ] |}
  /\ includes example (js "drain") = true
  /\ match_g true example (ethical_regex (js "drain")) = None
  /\ match_g true example (ethical_regex (js "steal")) = Some [js "steal"].
Proof. vm_compute. repeat split. Qed.

(** C4.  On the same text the initialized engine makes one
    transformation: "steal" is annotated and replaced by "audit", while
    "drainWallet" is left as it is, so the transformed code does not
    contain "protect". *)
Theorem ethicalMirror_example (clock : Clock) :
  exists r,
    ethicalMirror engine clock example = Return r
    /\ transformedCode r
       = js "function drainWallet() { /* Ethical transformation: steal -> audit */ audit(funds); }"
    /\ includes (transformedCode r) (js "audit") = true
    /\ includes (transformedCode r) (js "protect") = false
    /\ List.length (transformations r) = 1%nat.
Proof. eexists. split; [vm_compute; reflexivity|]. vm_compute. repeat split. Qed.

(** C7.  The transform is not idempotent: for the input "steal" the
    second run annotates the word again inside the comment the first run
    wrote, and its output differs from its input. *)
Theorem ethicalMirror_not_idempotent (clock1 clock2 : Clock) :
  exists x r1 r2,
    ethicalMirror engine clock1 x = Return r1
    /\ ethicalMirror engine clock2 (transformedCode r1) = Return r2
    /\ transformedCode r2 <> transformedCode r1
    /\ transformedCode r1 = js "/* Ethical transformation: steal -> audit */ audit"
    /\ transformedCode r2
       = js "/* Ethical transformation: /* Ethical transformation: steal -> audit */ audit -> audit */ audit".
Proof.
  exists (js "steal"). eexists. eexists.
  split; [vm_compute; reflexivity|]. split; [vm_compute; reflexivity|].
  vm_compute. repeat split. discriminate.
Qed.

(** C10.  The identifier "tx_origin" contains no security term as a
    substring and no ethical term in any form, yet the initialized engine
    rewrites it: the rule key "tx.origin" is compiled as a regular
    expression whose dot matches the underscore. *)
Theorem ethicalMirror_wildcard (clock : Clock) :
  forallb (fun entry => negb (includes (js "tx_origin") (fst entry)))
          (securityPatterns engine) = true
  /\ forallb (fun entry => negb (occurs_ignoring_case (fst entry) (js "tx_origin")))
             (transformationPatterns engine) = true
  /\ exists r,
       ethicalMirror engine clock (js "tx_origin") = Return r
       /\ originalCode r = js "tx_origin"
       /\ transformedCode r
          = js "/* Security transformation: tx_origin -> msg.sender */ msg.sender"
       /\ List.length (transformations r) = 1%nat.
Proof.
  split; [vm_compute; reflexivity|]. split; [vm_compute; reflexivity|].
  eexists. split; [vm_compute; reflexivity|]. vm_compute. repeat split.
Qed.

End MirrorProofs.

(* ================================================================== *)
(** ** Scanner                                                         *)
(* ================================================================== *)

Module ScannerProofs.

Import Auditor Spec JSFacts.

(** *** The loops push exactly the findings of [all_findings] *)

Lemma scanLine_eq now lines i line patterns found :
  scanLine now patterns lines i line found
  = found ++ line_findings now lines i line patterns (List.length found).
Proof.
  unfold scanLine. revert found.
  induction patterns as [|[k p] ps IH]; intros found; simpl.
  - rewrite app_nil_r. reflexivity.
  - destruct (pattern_test p line).
    + rewrite IH, length_app, <- app_assoc. simpl.
      rewrite Nat.add_1_r. reflexivity.
    + apply IH.
Qed.

Lemma scanFrom_eq now patterns lines rest i found :
  scanFrom now patterns lines i rest found
  = found ++ all_findings now patterns lines i rest (List.length found).
Proof.
  revert i found. induction rest as [|line rest IH]; intros i found; simpl.
  - rewrite app_nil_r. reflexivity.
  - rewrite IH, scanLine_eq, length_app, <- app_assoc. reflexivity.
Qed.

Lemma scan_eq now contractCode :
  scan now contractCode
  = all_findings now vulnerabilityPatterns (split_lines contractCode) 0
                 (split_lines contractCode) 0.
Proof. unfold scan. rewrite scanFrom_eq. reflexivity. Qed.

(** *** Findings of one line *)

Lemma line_findings_length now lines i line patterns count :
  List.length (line_findings now lines i line patterns count)
  = List.length (filter (fun e => pattern_test (snd e) line) patterns).
Proof.
  revert count. induction patterns as [|[k p] ps IH]; intros count; simpl;
    [reflexivity|].
  destruct (pattern_test p line); simpl; rewrite IH; reflexivity.
Qed.

Lemma line_findings_at now lines i line patterns count j :
  filter (at_line j) (line_findings now lines i line patterns count)
  = if Nat.eqb j i then line_findings now lines i line patterns count else [].
Proof.
  revert count. induction patterns as [|[k p] ps IH]; intros count; simpl.
  - destruct (Nat.eqb j i); reflexivity.
  - destruct (pattern_test p line); [|apply IH].
    simpl. rewrite IH. unfold at_line at 1. simpl.
    destruct (Nat.eqb j i) eqn:E.
    + apply Nat.eqb_eq in E. subst j. rewrite Z.eqb_refl. reflexivity.
    + apply Nat.eqb_neq in E.
      destruct (Z.eqb_spec (Z.of_nat i + 1) (Z.of_nat j + 1)); [lia|reflexivity].
Qed.

Lemma all_findings_later now patterns lines rest i count j :
  (j < i)%nat ->
  filter (at_line j) (all_findings now patterns lines i rest count) = [].
Proof.
  revert i count. induction rest as [|line rest IH]; intros i count Hlt; simpl;
    [reflexivity|].
  rewrite filter_app, line_findings_at, IH by lia.
  destruct (Nat.eqb_spec j i); [lia|reflexivity].
Qed.

(** The findings located at line [j] are the findings of that line. *)
Lemma all_findings_at now patterns lines rest i count j line :
  nth_error rest j = Some line ->
  exists count',
    filter (at_line (i + j)) (all_findings now patterns lines i rest count)
    = line_findings now lines (i + j) line patterns count'.
Proof.
  revert i count j. induction rest as [|l rest IH]; intros i count j Hn.
  - destruct j; discriminate.
  - simpl. rewrite filter_app, line_findings_at. destruct j as [|j].
    + injection Hn as ->. rewrite Nat.add_0_r, Nat.eqb_refl.
      rewrite all_findings_later by lia. rewrite app_nil_r.
      exists count. reflexivity.
    + simpl in Hn. destruct (Nat.eqb_spec (i + S j) i); [lia|]. simpl.
      replace (i + S j)%nat with (S i + j)%nat by lia.
      apply IH. exact Hn.
Qed.

(** *** Findings of one rule *)

Section Registry.

Variable patterns : list (jsstring * regex).

(** Distinct keys, and distinct names for distinct keys. *)
Hypothesis keys_distinct : NoDup (map fst patterns).
Hypothesis names_distinct :
  forall k1 k2, In k1 (map fst patterns) -> In k2 (map fst patterns) ->
                getVulnerabilityName k1 = getVulnerabilityName k2 -> k1 = k2.

Lemma line_findings_other now lines i line ps count key :
  In key (map fst patterns) ->
  (forall k, In k (map fst ps) -> In k (map fst patterns)) ->
  ~ In key (map fst ps) ->
  filter (of_rule key) (line_findings now lines i line ps count) = [].
Proof.
  intros Hk. revert count. induction ps as [|[k p] ps IH]; intros count Hsub Hnot;
    simpl; [reflexivity|].
  assert (Hrest : filter (of_rule key)
                    (line_findings now lines i line ps count) = []
                  /\ filter (of_rule key)
                       (line_findings now lines i line ps (S count)) = []).
  { split; apply IH; try (intros k' Hk'; apply Hsub; right; exact Hk');
      intros Hin; apply Hnot; right; exact Hin. }
  destruct (pattern_test p line); [|apply Hrest].
  simpl. unfold of_rule at 1. simpl.
  rewrite str_eqb_neq; [apply Hrest|].
  intros E. apply names_distinct in E; [|apply Hsub; left; reflexivity|exact Hk].
  apply Hnot. left. exact E.
Qed.

Lemma line_findings_rule_from now lines i line ps count key pattern :
  In key (map fst patterns) ->
  (forall k, In k (map fst ps) -> In k (map fst patterns)) ->
  NoDup (map fst ps) ->
  In (key, pattern) ps ->
  exists count',
    filter (of_rule key) (line_findings now lines i line ps count)
    = if pattern_test pattern line then [finding now lines i key count'] else [].
Proof.
  intros Hk. revert count.
  induction ps as [|[k p] ps IH]; intros count Hsub Hnd Hin; [destruct Hin|].
  simpl in Hnd. inversion Hnd as [|? ? Hnotin Hnd']; subst.
  assert (Hsub' : forall k', In k' (map fst ps) -> In k' (map fst patterns)).
  { intros k' Hk'. apply Hsub. right. exact Hk'. }
  destruct Hin as [E|Hin].
  - injection E as -> ->. simpl.
    destruct (pattern_test pattern line).
    + simpl. unfold of_rule at 1. simpl. rewrite str_eqb_refl.
      rewrite (line_findings_other now lines i line ps (S count) key Hk Hsub' Hnotin).
      exists count. reflexivity.
    + rewrite (line_findings_other now lines i line ps count key Hk Hsub' Hnotin).
      exists count. reflexivity.
  - assert (Hne : k <> key).
    { intros ->. apply Hnotin. apply (in_map fst) in Hin. exact Hin. }
    simpl. destruct (pattern_test p line).
    + simpl. unfold of_rule at 1. simpl. rewrite str_eqb_neq.
      * apply IH; assumption.
      * intros E. apply Hne. apply names_distinct;
          [apply Hsub; left; reflexivity|exact Hk|exact E].
    + apply IH; assumption.
Qed.

(** A rule contributes one finding to a line it matches, none otherwise. *)
Lemma line_findings_rule now lines i line count key pattern :
  In (key, pattern) patterns ->
  exists count',
    filter (of_rule key) (line_findings now lines i line patterns count)
    = if pattern_test pattern line then [finding now lines i key count'] else [].
Proof.
  intros Hin. apply line_findings_rule_from; auto.
  apply (in_map fst) in Hin. exact Hin.
Qed.

(** A rule contributes one finding per line it matches. *)
Lemma all_findings_rule now lines rest i count key pattern :
  In (key, pattern) patterns ->
  List.length (filter (of_rule key) (all_findings now patterns lines i rest count))
  = List.length (filter (pattern_test pattern) rest).
Proof.
  intros Hin. revert i count.
  induction rest as [|line rest IH]; intros i count; simpl; [reflexivity|].
  rewrite filter_app, length_app, IH.
  destruct (line_findings_rule now lines i line count key pattern Hin) as [c' ->].
  destruct (pattern_test pattern line); reflexivity.
Qed.

End Registry.

(** *** The registry of the constructor *)

Lemma registry_keys :
  map fst vulnerabilityPatterns
  = [js "reentrancy"; js "integerOverflow"; js "uncheckedReturn";
     js "txOrigin"; js "unsecuredSelfDestruct"].
Proof. reflexivity. Qed.

Lemma registry_keys_distinct : NoDup (map fst vulnerabilityPatterns).
Proof.
  rewrite registry_keys.
  repeat (constructor; [vm_compute; intuition discriminate|]).
  constructor.
Qed.

Lemma registry_names_distinct (k1 k2 : jsstring) :
  In k1 (map fst vulnerabilityPatterns) -> In k2 (map fst vulnerabilityPatterns) ->
  getVulnerabilityName k1 = getVulnerabilityName k2 -> k1 = k2.
Proof.
  rewrite registry_keys. intros H1 H2.
  repeat (destruct H1 as [<-|H1]); try (destruct H1);
    repeat (destruct H2 as [<-|H2]); try (destruct H2);
    intros E; try reflexivity; vm_compute in E; discriminate E.
Qed.

(** *** The code snippet *)

Lemma nth_after_cons {A} (x : A) (l : list A) (d : A) (a n : nat) :
  map (fun j => nth j (x :: l) d) (seq (S a) n) = map (fun j => nth j l d) (seq a n).
Proof. rewrite <- seq_shift, map_map. apply map_ext. reflexivity. Qed.

Lemma slice_nth {A} (l : list A) (d : A) (a n : nat) :
  (a + n <= List.length l)%nat ->
  firstn n (skipn a l) = map (fun j => nth j l d) (seq a n).
Proof.
  revert a n. induction l as [|x l IH]; intros a n Hle.
  - simpl in Hle. assert (a = 0%nat) by lia. assert (n = 0%nat) by lia.
    subst. reflexivity.
  - destruct a as [|a].
    + destruct n as [|n]; [reflexivity|]. simpl in Hle.
      change (skipn 0 (x :: l)) with (x :: l).
      change (firstn (S n) (x :: l)) with (x :: firstn n l).
      change (seq 0 (S n)) with (0%nat :: seq 1 n).
      rewrite map_cons. change (nth 0 (x :: l) d) with x. f_equal.
      rewrite nth_after_cons. apply (IH 0%nat n). simpl. lia.
    + simpl skipn. rewrite nth_after_cons. apply IH. simpl in Hle. lia.
Qed.

(** The slice the code takes is the window of the specification. *)
Lemma snippet_window (lines : list jsstring) (i : nat) :
  (i < List.length lines)%nat ->
  snippet lines i = join_lines (window lines i).
Proof.
  intros Hi. unfold snippet, window, slice. f_equal.
  replace (Z.to_nat (Z.min (Z.of_nat (List.length lines)) (Z.of_nat i + 3)))
    with (S (Z.to_nat (Z.min (Z.of_nat (List.length lines) - 1) (Z.of_nat i + 2))))
    by lia.
  apply slice_nth. lia.
Qed.

Lemma filter_both {A} (f g : A -> bool) (l : list A) :
  filter (fun x => f x && g x) l = filter f (filter g l).
Proof.
  induction l as [|x l IH]; simpl; [reflexivity|].
  destruct (g x); simpl; rewrite ?andb_true_r, ?andb_false_r;
    [destruct (f x)|]; rewrite IH; reflexivity.
Qed.

(** The two single-line examples: the reentrancy rule fires on the
    withdraw line, the self-destruct rule on the self-destruct line, both
    with severity critical. *)
Example scan_withdraw (now : nat -> N) :
  map (fun f => (name f, severity f, lineStart f)) (scan now Scenario.withdraw)
  = [ (js "Reentrancy Vulnerability", critical, 1);
      (js "Unchecked Return Value", medium, 1) ].
Proof. vm_compute. reflexivity. Qed.

Example scan_selfdestruct (now : nat -> N) :
  map (fun f => (name f, severity f, lineStart f)) (scan now Scenario.source)
  = [ (js "Unsecured Self-Destruct", critical, 1) ].
Proof. vm_compute. reflexivity. Qed.

(** C6.  For every source text, split into lines at line feeds: a rule
    whose pattern matches the line of index i contributes exactly one
    finding for that rule and line, with lineStart = lineEnd = i+1 and a
    snippet made of the lines max(0,i-2) .. min(lastIndex,i+2) joined by
    line feeds; a line matched by k rules has k findings, and a rule that
    matches m lines has m findings. *)
Theorem scan_findings (now : nat -> N) (contractCode : jsstring) :
  let lines := split_lines contractCode in
  let findings := scan now contractCode in
  (forall i line key pattern,
      nth_error lines i = Some line ->
      In (key, pattern) vulnerabilityPatterns ->
      pattern_test pattern line = true ->
      exists f,
        filter (fun f => of_rule key f && at_line i f) findings = [f]
        /\ lineStart f = Z.of_nat i + 1
        /\ lineEnd f = Z.of_nat i + 1
        /\ codeSnippet f = join_lines (window lines i))
  /\ (forall i line,
        nth_error lines i = Some line ->
        List.length (filter (at_line i) findings)
        = List.length (filter (fun rule => pattern_test (snd rule) line)
                              vulnerabilityPatterns))
  /\ (forall key pattern,
        In (key, pattern) vulnerabilityPatterns ->
        List.length (filter (of_rule key) findings)
        = List.length (filter (pattern_test pattern) lines)).
Proof.
  intros lines findings. subst findings. rewrite scan_eq. fold lines.
  split; [|split].
  - intros i line key pattern Hn Hin Ht.
    destruct (all_findings_at now vulnerabilityPatterns lines lines 0 0 i line Hn)
      as [c Hc].
    destruct (line_findings_rule vulnerabilityPatterns registry_keys_distinct
                registry_names_distinct now lines i line c key pattern Hin)
      as [c' Hc'].
    rewrite Ht in Hc'. change (0 + i)%nat with i in Hc.
    exists (finding now lines i key c').
    rewrite filter_both, Hc, Hc'.
    repeat split. cbn [codeSnippet finding]. apply snippet_window.
    apply nth_error_Some. congruence.
  - intros i line Hn.
    destruct (all_findings_at now vulnerabilityPatterns lines lines 0 0 i line Hn)
      as [c Hc].
    change (0 + i)%nat with i in Hc. rewrite Hc. apply line_findings_length.
  - intros key pattern Hin.
    apply (all_findings_rule vulnerabilityPatterns registry_keys_distinct
             registry_names_distinct). exact Hin.
Qed.

(** Three lines: line 2 matches the overflow and the tx.origin rule,
    line 3 the self-destruct rule. *)
Lemma scan_findings_witness :
  map (fun f => (name f, lineStart f, lineEnd f))
      (scan (fun _ => 0%N) Scenario.three_lines)
  = [ (js "Integer Overflow", 2, 2); (js "tx.origin Authentication", 2, 2);
      (js "Unsecured Self-Destruct", 3, 3) ]
  /\ exists f,
       filter (fun f => of_rule (js "txOrigin") f && at_line 1 f)
              (scan (fun _ => 0%N) Scenario.three_lines) = [f]
       /\ lineStart f = 2 /\ lineEnd f = 2
       /\ codeSnippet f = Scenario.three_lines.
Proof.
  split; [vm_compute; reflexivity|].
  destruct (scan_findings (fun _ => 0%N) Scenario.three_lines) as [H _].
  assert (Hn : nth_error (split_lines Scenario.three_lines) 1
               = Some (js "  total += tx.origin.balance;"))
    by (vm_compute; reflexivity).
  assert (Hin : In (js "txOrigin",
                    seqs [word "tx.origin"; NotAhead (later [word "!="])])
                   vulnerabilityPatterns)
    by (do 3 right; left; reflexivity).
  assert (Ht : pattern_test (seqs [word "tx.origin"; NotAhead (later [word "!="])])
                            (js "  total += tx.origin.balance;") = true)
    by (vm_compute; reflexivity).
  destruct (H 1%nat _ _ _ Hn Hin Ht) as [f [Hf [Hs [He Hc]]]].
  exists f. repeat split; assumption.
Defined.

End ScannerProofs.

(* ================================================================== *)
(** ** Auditor: the external model and the patch generator             *)
(* ================================================================== *)

Module AuditorProofs.

Import Auditor Spec Scenario JSFacts.

(** [initialize] always installs the model integration. *)
Lemma initialize_state (w : World) :
  initialized (initialize w constructor) = true
  /\ modelIntegration (initialize w constructor)
     = Some {| pythonPath := js "python"; modelBridgePath := bridge_path w |}.
Proof. split; reflexivity. Qed.

(** A failed process and unparsable output both end in [failure_result]. *)
Lemma model_auditContract_failure (w : World) (m : ModelIntegration) (path : jsstring) :
  (exists error, exec_audit w path = inl error)
  \/ (exists stdout, exec_audit w path = inr stdout /\ JSON_parse w stdout = None) ->
  model_auditContract w m path = failure_result.
Proof.
  unfold model_auditContract.
  intros [[error ->]|[stdout [-> ->]]]; reflexivity.
Qed.

(** With the integration in place, a failed model invocation makes
    [auditContract] return no findings and score 0, whatever the source
    text is; the built-in analyzer is not consulted. *)
Lemma auditContract_failure (w : World) (a : NeuroSolidityAuditor) (m : ModelIntegration)
      (path : jsstring) :
  initialized a = true ->
  modelIntegration a = Some m ->
  (exists error, exec_audit w path = inl error)
  \/ (exists stdout, exec_audit w path = inr stdout /\ JSON_parse w stdout = None) ->
  auditContract w a path
  = Return {| contractName := basename path;
              contractPath := path;
              vulnerabilities := [];
              score := 0;
              timestamp := Date_now w 0 |}.
Proof.
  intros Hi Hm Hf. unfold auditContract. rewrite Hi, Hm. cbn [negb].
  rewrite (model_auditContract_failure w m path Hf). reflexivity.
Qed.

(** C2.  The contract holds one self-destruct line, on which the built-in
    analyzer reports one critical finding and score 70.  When the model
    process fails, or prints text that is not JSON, the initialized
    auditor returns no findings and score 0 instead. *)
Theorem auditContract_model_failure :
  auditContract failing_model (initialize failing_model constructor) contract
  = Return {| contractName := js "Victim.sol";
              contractPath := contract;
              vulnerabilities := [];
              score := 0;
              timestamp := 0%N |}
  /\ auditContract garbled_model (initialize garbled_model constructor) contract
     = Return {| contractName := js "Victim.sol";
                 contractPath := contract;
                 vulnerabilities := [];
                 score := 0;
                 timestamp := 0%N |}
  /\ builtinAudit failing_model contract
     = Return {| contractName := js "Victim.sol";
                 contractPath := contract;
                 vulnerabilities := [self_destruct_finding];
                 score := 70;
                 timestamp := 0%N |}.
Proof. vm_compute. repeat split. Qed.

(** C8, counterexample.  The model answers the patch request: its text is
    what the caller gets, and the stored recommendation is not in it. *)
Lemma generatePatch_model_output :
  initialized (initialize answering_model constructor) = true
  /\ readFileSync answering_model contract = Some source
  /\ name unchecked_return <> js "Reentrancy Vulnerability"
  /\ name unchecked_return <> js "Integer Overflow"
  /\ generatePatch answering_model (initialize answering_model constructor)
                   unchecked_return contract
     = Return (js "// patched by the model")
  /\ includes (js "// patched by the model") (recommendation unchecked_return) = false.
Proof.
  split; [reflexivity|]. split; [reflexivity|].
  split; [vm_compute; discriminate|]. split; [vm_compute; discriminate|].
  split; vm_compute; reflexivity.
Qed.

Lemma builtinPatch_default (w : World) (v : Vulnerability) (path code : jsstring) :
  readFileSync w path = Some code ->
  name v <> js "Reentrancy Vulnerability" ->
  name v <> js "Integer Overflow" ->
  builtinPatch w v path = Return (manual_review ++ recommendation v).
Proof.
  intros Hr H1 H2. unfold builtinPatch. rewrite Hr.
  rewrite (str_eqb_neq _ _ H1), (str_eqb_neq _ _ H2). reflexivity.
Qed.

(** C8, amended.  For an initialized auditor, a readable contract and a
    vulnerability whose name the patch switch does not list,
    [generatePatch] does not throw.  The built-in generator returns the
    non-empty advisory text that ends with the stored recommendation, and
    [generatePatch] returns that text when no model integration is
    present; when the integration's process succeeds, [generatePatch]
    returns the output of the process as it is. *)
Theorem generatePatch_unknown_key
        (w : World) (a : NeuroSolidityAuditor) (v : Vulnerability)
        (contractPath contractCode : jsstring) :
  initialized a = true ->
  readFileSync w contractPath = Some contractCode ->
  name v <> js "Reentrancy Vulnerability" ->
  name v <> js "Integer Overflow" ->
  (exists text, generatePatch w a v contractPath = Return text)
  /\ (forall m stdout,
        modelIntegration a = Some m ->
        exec_patch w contractCode (toModelVulnerability v) = inr stdout ->
        generatePatch w a v contractPath = Return stdout)
  /\ (modelIntegration a = None ->
      generatePatch w a v contractPath = builtinPatch w v contractPath)
  /\ exists advisory,
       builtinPatch w v contractPath = Return advisory
       /\ advisory = manual_review ++ recommendation v
       /\ advisory <> []
       /\ includes advisory (recommendation v) = true.
Proof.
  intros Hi Hr H1 H2.
  pose proof (builtinPatch_default w v contractPath contractCode Hr H1 H2) as Hb.
  unfold generatePatch. rewrite Hi. cbn [negb]. rewrite Hr.
  split; [|split; [|split]].
  - destruct (modelIntegration a); [eexists; reflexivity|].
    rewrite Hb. eexists; reflexivity.
  - intros m stdout -> He. unfold model_generatePatch. rewrite He. reflexivity.
  - intros ->. reflexivity.
  - exists (manual_review ++ recommendation v).
    split; [exact Hb|]. split; [reflexivity|]. split.
    + discriminate.
    + apply includes_suffix.
Qed.

Lemma generatePatch_unknown_key_witness :
  (exists text,
      generatePatch answering_model (initialize answering_model constructor)
                    unchecked_return contract = Return text)
  /\ (forall m stdout,
        modelIntegration (initialize answering_model constructor) = Some m ->
        exec_patch answering_model source (toModelVulnerability unchecked_return)
        = inr stdout ->
        generatePatch answering_model (initialize answering_model constructor)
                      unchecked_return contract = Return stdout)
  /\ (modelIntegration (initialize answering_model constructor) = None ->
      generatePatch answering_model (initialize answering_model constructor)
                    unchecked_return contract
      = builtinPatch answering_model unchecked_return contract)
  /\ exists advisory,
       builtinPatch answering_model unchecked_return contract = Return advisory
       /\ advisory = manual_review ++ recommendation unchecked_return
       /\ advisory <> []
       /\ includes advisory (recommendation unchecked_return) = true.
Proof.
  apply (generatePatch_unknown_key answering_model
           (initialize answering_model constructor) unchecked_return
           contract source).
  - reflexivity.
  - reflexivity.
  - vm_compute; discriminate.
  - vm_compute; discriminate.
Defined.

End AuditorProofs.

(* ================================================================== *)
(** ** Scanner: what every finding of the built-in scan satisfies      *)
(* ================================================================== *)

Module ScannerMore.

Import Auditor Spec JSFacts ScorerProofs ScannerProofs.

(** Where a finding of one line comes from. *)
Lemma line_findings_origin now lines i line patterns count f :
  In f (line_findings now lines i line patterns count) ->
  exists key pattern count',
    In (key, pattern) patterns /\ pattern_test pattern line = true
    /\ f = finding now lines i key count'.
Proof.
  revert count. induction patterns as [|[k p] ps IH]; intros count Hin; [destruct Hin|].
  simpl in Hin. destruct (pattern_test p line) eqn:E.
  - destruct Hin as [<-|Hin].
    + exists k, p, count. repeat split; [left; reflexivity|exact E].
    + destruct (IH _ Hin) as [key [pattern [c [H1 [H2 H3]]]]].
      exists key, pattern, c. repeat split; [right|..]; assumption.
  - destruct (IH _ Hin) as [key [pattern [c [H1 [H2 H3]]]]].
    exists key, pattern, c. repeat split; [right|..]; assumption.
Qed.

(** Where a finding of the whole scan comes from. *)
Lemma all_findings_origin now patterns lines rest i count f :
  In f (all_findings now patterns lines i rest count) ->
  exists j line key pattern count',
    nth_error rest j = Some line /\ In (key, pattern) patterns
    /\ pattern_test pattern line = true
    /\ f = finding now lines (i + j) key count'.
Proof.
  revert i count. induction rest as [|l rest IH]; intros i count Hin; [destruct Hin|].
  simpl in Hin. apply in_app_or in Hin. destruct Hin as [Hin|Hin].
  - destruct (line_findings_origin _ _ _ _ _ _ _ Hin) as [key [pattern [c [H1 [H2 H3]]]]].
    exists 0%nat, l, key, pattern, c. rewrite Nat.add_0_r. repeat split; assumption.
  - destruct (IH _ _ Hin) as [j [line [key [pattern [c [H0 [H1 [H2 H3]]]]]]]].
    exists (S j), line, key, pattern, c.
    replace (i + S j)%nat with (S i + j)%nat by lia. repeat split; assumption.
Qed.

Lemma scan_origin now contractCode f :
  In f (scan now contractCode) ->
  exists i line key pattern count,
    nth_error (split_lines contractCode) i = Some line
    /\ In (key, pattern) vulnerabilityPatterns
    /\ pattern_test pattern line = true
    /\ f = finding now (split_lines contractCode) i key count.
Proof. rewrite scan_eq. intros H. apply all_findings_origin in H. exact H. Qed.

(** A matching rule on some line leaves a finding. *)
Lemma scan_reports now contractCode line key pattern :
  In line (split_lines contractCode) ->
  In (key, pattern) vulnerabilityPatterns ->
  pattern_test pattern line = true ->
  scan now contractCode <> [].
Proof.
  intros Hl Hin Ht E.
  pose proof (all_findings_rule vulnerabilityPatterns registry_keys_distinct
                registry_names_distinct now (split_lines contractCode)
                (split_lines contractCode) 0 0 key pattern Hin) as Hc.
  rewrite <- scan_eq, E in Hc. simpl in Hc.
  assert (Hf : In line (filter (pattern_test pattern) (split_lines contractCode))).
  { apply filter_In. split; assumption. }
  destruct (filter (pattern_test pattern) (split_lines contractCode));
    [destruct Hf|discriminate Hc].
Qed.

(** X1.  The built-in analyzer gives score 100 exactly when it reports
    nothing, and it reports nothing exactly when no registered pattern
    matches any line of the file. *)
Theorem builtinAudit_clean (w : World) (contractPath contractCode : jsstring) :
  readFileSync w contractPath = Some contractCode ->
  exists r,
    builtinAudit w contractPath = Return r
    /\ (score r = 100 <-> vulnerabilities r = [])
    /\ (vulnerabilities r = []
        <-> forall line key pattern,
              In line (split_lines contractCode) ->
              In (key, pattern) vulnerabilityPatterns ->
              pattern_test pattern line = false).
Proof.
  intros Hr. unfold builtinAudit. rewrite Hr. eexists. split; [reflexivity|].
  cbn [score vulnerabilities]. split.
  - rewrite score_formula.
    destruct (scan (Date_now w) contractCode) as [|v F]; [tauto|].
    split; [|discriminate]. intros E.
    assert (1 <= penalty (v :: F)) by (apply penalty_pos; discriminate). lia.
  - split.
    + intros E line key pattern Hl Hin.
      destruct (pattern_test pattern line) eqn:Ht; [|reflexivity].
      exfalso. exact (scan_reports _ _ _ _ _ Hl Hin Ht E).
    + intros Hno. destruct (scan (Date_now w) contractCode) as [|f F] eqn:E; [reflexivity|].
      assert (Hf : In f (scan (Date_now w) contractCode)) by (rewrite E; left; reflexivity).
      destruct (scan_origin _ _ _ Hf) as [i [line [key [pattern [c [Hn [Hin [Ht _]]]]]]]].
      apply nth_error_In in Hn. rewrite (Hno _ _ _ Hn Hin) in Ht. discriminate.
Qed.

Lemma builtinAudit_clean_witness :
  exists r,
    builtinAudit Scenario.failing_model Scenario.contract = Return r
    /\ (score r = 100 <-> vulnerabilities r = [])
    /\ (vulnerabilities r = []
        <-> forall line key pattern,
              In line (split_lines Scenario.source) ->
              In (key, pattern) vulnerabilityPatterns ->
              pattern_test pattern line = false).
Proof.
  apply (builtinAudit_clean Scenario.failing_model Scenario.contract Scenario.source).
  reflexivity.
Defined.

(** The severities the registry assigns weigh 10 points or more. *)
Lemma registry_weight (key : jsstring) (pattern : regex) :
  In (key, pattern) vulnerabilityPatterns ->
  10 <= weight (getVulnerabilitySeverity key).
Proof.
  intros Hin. apply (in_map fst) in Hin. rewrite registry_keys in Hin.
  simpl fst in Hin.
  repeat (destruct Hin as [<-|Hin]; [vm_compute; discriminate|]). destruct Hin.
Qed.

Lemma penalty_at_least (F : list Vulnerability) :
  Forall (fun f => 10 <= weight (severity f)) F ->
  10 * Z.of_nat (List.length F) <= penalty F.
Proof.
  induction 1 as [|f F Hf _ IH]; [simpl; lia|].
  cbn [penalty List.length]. lia.
Qed.

Lemma sorted_after_block (a : Z) (block rest : list Z) :
  (forall x, In x block -> x = a) ->
  (forall y, In y rest -> a <= y) ->
  StronglySorted Z.le rest ->
  StronglySorted Z.le (block ++ rest).
Proof.
  intros Hb Hr Hs. induction block as [|x block IH]; [exact Hs|].
  cbn [app]. constructor.
  - apply IH. intros y Hy. apply Hb. right. exact Hy.
  - apply Forall_forall. intros y Hy.
    rewrite (Hb x (or_introl eq_refl)).
    apply in_app_or in Hy. destruct Hy as [Hy|Hy].
    + rewrite (Hb y (or_intror Hy)). lia.
    + apply Hr. exact Hy.
Qed.

Lemma all_findings_sorted now patterns lines rest i count :
  StronglySorted Z.le (map lineStart (all_findings now patterns lines i rest count)).
Proof.
  revert i count. induction rest as [|l rest IH]; intros i count; [constructor|].
  cbn [all_findings]. rewrite map_app.
  apply (sorted_after_block (Z.of_nat i + 1)).
  - intros x Hx. apply in_map_iff in Hx. destruct Hx as [f [<- Hf]].
    apply line_findings_origin in Hf.
    destruct Hf as [key [pattern [c [_ [_ ->]]]]]. reflexivity.
  - intros y Hy. apply in_map_iff in Hy. destruct Hy as [f [<- Hf]].
    apply all_findings_origin in Hf.
    destruct Hf as [j [line [key [pattern [c [_ [_ [_ ->]]]]]]]].
    cbn [lineStart finding]. lia.
  - apply IH.
Qed.

(** X2.  Every finding of the built-in scan is located on a line of the
    file, with lineEnd = lineStart, and the findings come in line order. *)
Theorem scan_line_order (now : nat -> N) (contractCode : jsstring) :
  Forall (fun f => 1 <= lineStart f <= Z.of_nat (List.length (split_lines contractCode))
                   /\ lineEnd f = lineStart f)
         (scan now contractCode)
  /\ StronglySorted Z.le (map lineStart (scan now contractCode)).
Proof.
  split.
  - apply Forall_forall. intros f Hf.
    destruct (scan_origin _ _ _ Hf) as [i [line [key [pattern [c [Hn [_ [_ ->]]]]]]]].
    assert (i < List.length (split_lines contractCode))%nat
      by (apply nth_error_Some; congruence).
    cbn [lineStart lineEnd finding]. lia.
  - rewrite scan_eq. apply all_findings_sorted.
Qed.

(** X3.  Every finding of the built-in scan carries the name, severity,
    description and recommendation of one registry rule; none is rated
    below medium, so n findings cost at least 10 n points: the score is at
    most 100 - 10 n, and 0 from ten findings on. *)
Theorem scan_score_bound (now : nat -> N) (contractCode : jsstring) :
  Forall (fun f =>
            exists key pattern,
              In (key, pattern) vulnerabilityPatterns
              /\ name f = getVulnerabilityName key
              /\ severity f = getVulnerabilitySeverity key
              /\ description f = getVulnerabilityDescription key
              /\ recommendation f = getVulnerabilityRecommendation key
              /\ (severity f = critical \/ severity f = high \/ severity f = medium))
         (scan now contractCode)
  /\ calculateSecurityScore (scan now contractCode)
     <= Z.max 0 (100 - 10 * Z.of_nat (List.length (scan now contractCode))).
Proof.
  assert (Ho : forall f, In f (scan now contractCode) ->
                 exists key pattern,
                   In (key, pattern) vulnerabilityPatterns
                   /\ name f = getVulnerabilityName key
                   /\ severity f = getVulnerabilitySeverity key
                   /\ description f = getVulnerabilityDescription key
                   /\ recommendation f = getVulnerabilityRecommendation key).
  { intros f Hf.
    destruct (scan_origin _ _ _ Hf) as [i [line [key [pattern [c [_ [Hin [_ ->]]]]]]]].
    exists key, pattern. repeat split. exact Hin. }
  split.
  - apply Forall_forall. intros f Hf.
    destruct (Ho f Hf) as [key [pattern [Hin [Hn [Hs [Hd Hr]]]]]].
    exists key, pattern. repeat split; try assumption.
    pose proof (registry_weight key pattern Hin) as Hw. rewrite <- Hs in Hw.
    destruct (severity f); simpl in Hw; auto; lia.
  - rewrite score_formula.
    assert (Hp : 10 * Z.of_nat (List.length (scan now contractCode))
                 <= penalty (scan now contractCode)).
    { apply penalty_at_least. apply Forall_forall. intros f Hf.
      destruct (Ho f Hf) as [key [pattern [Hin [_ [Hs _]]]]].
      rewrite Hs. exact (registry_weight key pattern Hin). }
    destruct (scan now contractCode) as [|f F]; [simpl; lia|]. lia.
Qed.

End ScannerMore.

(* ================================================================== *)
(** ** Scanner: the code snippet                                       *)
(* ================================================================== *)

Module SnippetProofs.

Import Auditor Spec JSFacts ScannerProofs ScannerMore.

Lemma includes_unfold (s p : jsstring) :
  includes s p
  = startsWith p s || match s with [] => false | _ :: s' => includes s' p end.
Proof. destruct s; reflexivity. Qed.

(** A text includes whatever stands between two of its parts. *)
Lemma includes_middle (pre m post : jsstring) : includes (pre ++ m ++ post) m = true.
Proof.
  induction pre as [|x pre IH].
  - cbn [app]. rewrite includes_unfold, startsWith_app. reflexivity.
  - cbn [app]. rewrite includes_unfold, IH. apply orb_true_r.
Qed.

Lemma split_lines_aux_nonempty (cur s : jsstring) : split_lines_aux cur s <> [].
Proof.
  revert cur. induction s as [|x s IH]; intros cur; simpl; [discriminate|].
  destruct (unit_eqb x NEWLINE); [discriminate|apply IH].
Qed.

Lemma join_lines_cons (l : jsstring) (rest : list jsstring) :
  rest <> [] -> join_lines (l :: rest) = l ++ NEWLINE :: join_lines rest.
Proof. destruct rest; [congruence|reflexivity]. Qed.

Lemma join_split_aux (cur s : jsstring) :
  join_lines (split_lines_aux cur s) = rev cur ++ s.
Proof.
  revert cur. induction s as [|x s IH]; intros cur; simpl.
  - rewrite app_nil_r. reflexivity.
  - destruct (unit_eqb x NEWLINE) eqn:E.
    + rewrite join_lines_cons by apply split_lines_aux_nonempty.
      rewrite IH. apply N.eqb_eq in E. subst x. reflexivity.
    + rewrite IH. simpl. rewrite <- app_assoc. reflexivity.
Qed.

(** Joining the lines of a text with line feeds gives the text back. *)
Lemma join_split (s : jsstring) : join_lines (split_lines s) = s.
Proof. apply join_split_aux. Qed.

Lemma join_lines_app (a b : list jsstring) :
  a <> [] -> b <> [] ->
  join_lines (a ++ b) = join_lines a ++ NEWLINE :: join_lines b.
Proof.
  intros Ha Hb. induction a as [|x a IH]; [congruence|].
  destruct a as [|y a].
  - cbn [app]. rewrite join_lines_cons by exact Hb. reflexivity.
  - change ((x :: y :: a) ++ b) with (x :: ((y :: a) ++ b)).
    rewrite join_lines_cons by discriminate.
    rewrite IH by discriminate.
    rewrite (join_lines_cons x (y :: a)) by discriminate.
    rewrite <- app_assoc. reflexivity.
Qed.

(** The joined text of consecutive lines stands inside the joined text of
    all lines. *)
Lemma join_lines_middle (before mid after : list jsstring) :
  exists pre post,
    join_lines (before ++ mid ++ after) = pre ++ join_lines mid ++ post.
Proof.
  destruct mid as [|m mid].
  - exists (join_lines (before ++ after)), []. cbn [app join_lines].
    rewrite app_nil_r. reflexivity.
  - destruct before as [|b before]; destruct after as [|a after].
    + exists [], []. cbn [app]. rewrite !app_nil_r. reflexivity.
    + exists [], (NEWLINE :: join_lines (a :: after)). cbn [app].
      apply (join_lines_app (m :: mid) (a :: after)); discriminate.
    + exists (join_lines (b :: before) ++ [NEWLINE]), [].
      rewrite !app_nil_r, join_lines_app by discriminate.
      rewrite <- app_assoc. reflexivity.
    + exists (join_lines (b :: before) ++ [NEWLINE]),
             (NEWLINE :: join_lines (a :: after)).
      rewrite join_lines_app by discriminate.
      rewrite (join_lines_app (m :: mid)) by discriminate.
      rewrite <- !app_assoc. reflexivity.
Qed.

Lemma slice_parts {A} (l : list A) (from to : nat) :
  l = firstn from l ++ slice l from to ++ skipn (to - from) (skipn from l).
Proof.
  unfold slice. rewrite firstn_skipn, firstn_skipn. reflexivity.
Qed.

(** X4.  The code snippet of every finding of the built-in scan is a piece
    of the scanned text as it stands, and contains the line the finding
    is located on. *)
Theorem snippet_in_source (now : nat -> N) (contractCode : jsstring) (f : Vulnerability) :
  In f (scan now contractCode) ->
  includes contractCode (codeSnippet f) = true
  /\ exists line,
       nth_error (split_lines contractCode) (Z.to_nat (lineStart f - 1)) = Some line
       /\ includes (codeSnippet f) line = true.
Proof.
  intros Hf.
  destruct (scan_origin _ _ _ Hf) as [i [line [key [pattern [c [Hn [_ [_ ->]]]]]]]].
  cbn [codeSnippet lineStart finding]. unfold snippet.
  set (lines := split_lines contractCode) in *.
  set (from := Z.to_nat (Z.max 0 (Z.of_nat i - 2))).
  set (to := Z.to_nat (Z.min (Z.of_nat (List.length lines)) (Z.of_nat i + 3))).
  assert (Hi : (i < List.length lines)%nat) by (apply nth_error_Some; congruence).
  split.
  - destruct (join_lines_middle (firstn from lines) (slice lines from to)
                (skipn (to - from) (skipn from lines))) as [pre [post E]].
    rewrite <- slice_parts in E. unfold lines in E at 1. rewrite join_split in E.
    rewrite E. apply includes_middle.
  - exists line. replace (Z.to_nat (Z.of_nat i + 1 - 1)) with i by lia.
    split; [exact Hn|].
    assert (Hs : nth_error (slice lines from to) (i - from) = Some line).
    { unfold slice. rewrite nth_error_firstn.
      replace (Nat.ltb (i - from) (to - from)) with true
        by (symmetry; apply Nat.ltb_lt; unfold from, to; lia).
      rewrite nth_error_skipn.
      replace (from + (i - from))%nat with i by (unfold from; lia). exact Hn. }
    apply nth_error_split in Hs. destruct Hs as [l1 [l2 [E _]]]. rewrite E.
    destruct (join_lines_middle l1 [line] l2) as [pre [post E']].
    change (l1 ++ line :: l2) with (l1 ++ [line] ++ l2). rewrite E'.
    apply includes_middle.
Qed.

Lemma snippet_in_source_witness :
  includes Scenario.source (codeSnippet Scenario.self_destruct_finding) = true
  /\ exists line,
       nth_error (split_lines Scenario.source)
                 (Z.to_nat (lineStart Scenario.self_destruct_finding - 1)) = Some line
       /\ includes (codeSnippet Scenario.self_destruct_finding) line = true.
Proof.
  apply (snippet_in_source (fun _ => 0%N)). vm_compute. left. reflexivity.
Defined.

End SnippetProofs.

(* ================================================================== *)
(** ** The matcher, and the built-in patch generator                   *)
(* ================================================================== *)

Module PatchProofs.

Import Auditor Spec MatcherSpec JSFacts ScannerProofs ScannerMore SnippetProofs.


Section MatcherFacts.

Variable ignoreCase : bool.












Lemma exec_from_none (r : regex) (s : jsstring) :
  forall prev before,
    test_from ignoreCase r prev s = false ->
    exec_from ignoreCase r prev before s = None.
Proof.
  induction s as [|x s IH]; intros prev before; simpl.
  - destruct (matchHere ignoreCase r prev []); [discriminate|reflexivity].
  - destruct (matchHere ignoreCase r prev (x :: s)); [discriminate|]. apply IH.
Qed.



End MatcherFacts.

(** *** The patch switch on the findings of the scan *)




Lemma line_at_index (lines : list jsstring) (i : nat) :
  line_at lines (Z.of_nat i + 1) = nth_error lines i.
Proof.
  unfold line_at. destruct (Z.ltb_spec (Z.of_nat i + 1 - 1) 0); [lia|].
  f_equal. lia.
Qed.







(** X7.  The built-in patch generator never throws on a finding of the
    built-in scan of the same file: the line a finding points to exists. *)
Theorem builtinPatch_of_finding (w : World) (contractPath contractCode : jsstring)
        (f : Vulnerability) :
  readFileSync w contractPath = Some contractCode ->
  In f (scan (Date_now w) contractCode) ->
  exists line patch,
    line_at (split_lines contractCode) (lineStart f) = Some line
    /\ builtinPatch w f contractPath = Return patch.
Proof.
  intros Hr Hf.
  destruct (scan_origin _ _ _ Hf) as [i [line [key [pattern [c [Hl [_ [_ E]]]]]]]].
  assert (Hs : lineStart f = Z.of_nat i + 1) by (rewrite E; reflexivity).
  exists line. unfold builtinPatch. rewrite Hr, Hs, line_at_index, Hl.
  destruct (str_eqb (name f) (js "Reentrancy Vulnerability"));
    [eexists; split; reflexivity|].
  destruct (str_eqb (name f) (js "Integer Overflow")); eexists; split; reflexivity.
Qed.

Lemma builtinPatch_of_finding_witness :
  exists line patch,
    line_at (split_lines Scenario.source) (lineStart Scenario.self_destruct_finding)
    = Some line
    /\ builtinPatch Scenario.failing_model Scenario.self_destruct_finding Scenario.contract
       = Return patch.
Proof.
  apply (builtinPatch_of_finding Scenario.failing_model Scenario.contract Scenario.source).
  - reflexivity.
  - vm_compute. left. reflexivity.
Defined.

(** X8.  Outside the scan's own findings the two rewriting branches are
    partial: a lineStart that is not a line of the file makes the call
    throw, and a line without the pattern comes back unchanged.  An
    unreadable file makes every call throw. *)
Theorem builtinPatch_edges (w : World) (contractPath contractCode : jsstring)
        (v : Vulnerability) :
  readFileSync w contractPath = Some contractCode ->
  name v = js "Reentrancy Vulnerability" \/ name v = js "Integer Overflow" ->
  (lineStart v < 1 \/ Z.of_nat (List.length (split_lines contractCode)) < lineStart v ->
   builtinPatch w v contractPath = Throw (js "TypeError"))
  /\ (forall line,
        line_at (split_lines contractCode) (lineStart v) = Some line ->
        test true reentrancy_call line = false ->
        test true overflow_operator line = false ->
        builtinPatch w v contractPath = Return line).
Proof.
  intros Hr Hn. unfold builtinPatch. rewrite Hr. split.
  - intros Hout.
    assert (Hl : line_at (split_lines contractCode) (lineStart v) = None).
    { unfold line_at. destruct (Z.ltb_spec (lineStart v - 1) 0); [reflexivity|].
      apply nth_error_None. lia. }
    rewrite Hl. destruct Hn as [-> | ->]; reflexivity.
  - intros line Hl H1 H2. rewrite Hl. unfold replace_regex.
    rewrite (exec_from_none true reentrancy_call line None [] H1).
    rewrite (exec_from_none true overflow_operator line None [] H2).
    destruct Hn as [-> | ->]; reflexivity.
Qed.

Lemma builtinPatch_edges_witness :
  (lineStart Scenario.misplaced < 1
   \/ Z.of_nat (List.length (split_lines Scenario.source)) < lineStart Scenario.misplaced ->
   builtinPatch Scenario.failing_model Scenario.misplaced Scenario.contract
   = Throw (js "TypeError"))
  /\ (forall line,
        line_at (split_lines Scenario.source) (lineStart Scenario.misplaced) = Some line ->
        test true reentrancy_call line = false ->
        test true overflow_operator line = false ->
        builtinPatch Scenario.failing_model Scenario.misplaced Scenario.contract
        = Return line).
Proof.
  apply (builtinPatch_edges Scenario.failing_model Scenario.contract Scenario.source).
  - reflexivity.
  - right. reflexivity.
Defined.

End PatchProofs.

(* ================================================================== *)
(** ** Auditor: tables, model results and test cases                   *)
(* ================================================================== *)

Module AuditorMore.

Import Auditor Spec Scenario JSFacts ScorerProofs AuditorProofs.

(** X9.  [mapSeverity] undoes [mapSeverityToString], and maps every string
    that is not one of the five severity names to medium. *)
Theorem mapSeverity_roundtrip :
  (forall s, mapSeverity (mapSeverityToString s) = s)
  /\ (forall k, (forall s, severity_key s <> k) -> mapSeverity k = medium).
Proof.
  split.
  - intros s. destruct s; reflexivity.
  - intros k Hk. unfold mapSeverity, lookup_or. cbn [lookup].
    rewrite (str_eqb_neq (js "critical") k (Hk critical)),
      (str_eqb_neq (js "high") k (Hk high)),
      (str_eqb_neq (js "medium") k (Hk medium)),
      (str_eqb_neq (js "low") k (Hk low)),
      (str_eqb_neq (js "info") k (Hk info)).
    reflexivity.
Qed.










(** X12.  When the model's output parses but carries no findings array,
    the conversion throws inside [auditContract] and the built-in analyzer
    takes over: the caller gets exactly the built-in result. *)
Theorem auditContract_shape_error (w : World) (a : NeuroSolidityAuditor)
        (m : ModelIntegration) (contractPath stdout : jsstring)
        (modelResult : ModelAuditResult) :
  initialized a = true ->
  modelIntegration a = Some m ->
  exec_audit w contractPath = inr stdout ->
  JSON_parse w stdout = Some modelResult ->
  mr_vulnerabilities modelResult = None ->
  auditContract w a contractPath = builtinAudit w contractPath.
Proof.
  intros Hi Hm He Hp Hv. unfold auditContract, model_auditContract.
  rewrite Hi, Hm, He, Hp. cbn [negb].
  unfold convertModelAuditResult. rewrite Hv. reflexivity.
Qed.

Lemma auditContract_shape_error_witness :
  auditContract shapeless_model (initialize shapeless_model constructor) contract
  = builtinAudit shapeless_model contract.
Proof.
  apply (auditContract_shape_error shapeless_model
           (initialize shapeless_model constructor)
           {| pythonPath := js "python"; modelBridgePath := js "model/model_bridge.py" |}
           contract (js "{}")
           {| is_vulnerable := false; vulnerability_score := None;
              mr_vulnerabilities := None; features := [] |});
    reflexivity.
Defined.

(** X13.  When the model invocation fails, [auditContract] of an
    initialized auditor does not read the contract file at all: it returns
    the empty result with score 0 even for a path that cannot be read,
    where the built-in analyzer throws. *)
Theorem auditContract_unreadable (w : World) (a : NeuroSolidityAuditor)
        (m : ModelIntegration) (contractPath error : jsstring) :
  initialized a = true ->
  modelIntegration a = Some m ->
  exec_audit w contractPath = inl error ->
  readFileSync w contractPath = None ->
  builtinAudit w contractPath = Throw (js "ENOENT")
  /\ exists r,
       auditContract w a contractPath = Return r
       /\ vulnerabilities r = [] /\ score r = 0.
Proof.
  intros Hi Hm He Hr. split.
  - unfold builtinAudit. rewrite Hr. reflexivity.
  - eexists. split.
    + apply (auditContract_failure w a m contractPath Hi Hm).
      left. exists error. exact He.
    + split; reflexivity.
Qed.

Lemma auditContract_unreadable_witness :
  builtinAudit missing_file contract = Throw (js "ENOENT")
  /\ exists r,
       auditContract missing_file (initialize missing_file constructor) contract = Return r
       /\ vulnerabilities r = [] /\ score r = 0.
Proof.
  apply (auditContract_unreadable missing_file (initialize missing_file constructor)
           {| pythonPath := js "python"; modelBridgePath := js "model/model_bridge.py" |}
           contract (js "Error: Command failed: python"));
    reflexivity.
Defined.

(** *** Test cases *)

Lemma map_index_edge (now : nat -> N) (l : list ModelTestCase) (index : nat) :
  map edgeCase (map_index (convert_test now) index l) = map edge_case l.
Proof.
  revert index. induction l as [|t l IH]; intros index; simpl; [reflexivity|].
  rewrite IH. reflexivity.
Qed.


(** X14.  Asked for edge cases only, [generateTestCases] returns edge cases
    only, whether they come from the model or from the built-in examples. *)
Theorem generateTestCases_edge_only
        (w : World) (exec_test : jsstring -> option (list ModelTestCase))
        (a : NeuroSolidityAuditor) (contractPath : jsstring) (cases : list TestCase) :
  generateTestCases w exec_test a contractPath true = Return cases ->
  Forall (fun t => edgeCase t = true) cases.
Proof.
  unfold generateTestCases, builtinGenerate.
  destruct (negb (initialized a)); [discriminate|].
  assert (Hb : Forall (fun t => edgeCase t = true) (builtinTestCases (Date_now w) true))
    by (repeat constructor).
  destruct (modelIntegration a).
  - destruct (readFileSync w contractPath); [|discriminate].
    intros H. injection H as <-. unfold convertModelTestCases.
    apply Forall_forall. intros t Ht. apply (in_map edgeCase) in Ht.
    rewrite map_index_edge in Ht. apply in_map_iff in Ht.
    destruct Ht as [mt [E Hin]]. apply filter_In in Hin. rewrite <- E. apply Hin.
  - destruct (readFileSync w contractPath); [|discriminate].
    intros H. injection H as <-. exact Hb.
Qed.

Lemma generateTestCases_edge_only_witness :
  Forall (fun t => edgeCase t = true)
         (convertModelTestCases (Date_now failing_model) model_cases true).
Proof.
  apply (generateTestCases_edge_only failing_model (fun _ => Some model_cases)
           (initialize failing_model constructor) contract).
  reflexivity.
Defined.




End AuditorMore.

(* ================================================================== *)
(** ** Ethical mirror: analysis, record order, pattern tables          *)
(* ================================================================== *)

Module MirrorMore.

Import Mirror Spec MatcherSpec JSFacts MirrorProofs.

(** *** analyzeEthics *)





(** *** The records of ethicalMirror *)














(** *** The pattern tables *)

Lemma map_set_keys (m : PatternMap) (key value : jsstring) :
  (In key (map fst m) -> map fst (map_set m key value) = map fst m)
  /\ (~ In key (map fst m) -> map fst (map_set m key value) = map fst m ++ [key]).
Proof.
  induction m as [|[k v] m [IH1 IH2]]; simpl.
  - split; [intros []|reflexivity].
  - destruct (str_eqb k key) eqn:E.
    + apply str_eqb_eq in E. subst k. split; [reflexivity|].
      intros H. exfalso. apply H. left. reflexivity.
    + assert (k <> key) by (intros ->; rewrite str_eqb_refl in E; discriminate).
      simpl. split.
      * intros [Hk|Hk]; [contradiction|]. rewrite IH1 by exact Hk. reflexivity.
      * intros Hn. rewrite IH2; [reflexivity|]. intros Hk. apply Hn. right. exact Hk.
Qed.

Lemma map_set_In (m : PatternMap) (key value : jsstring) :
  In (key, value) (map_set m key value).
Proof.
  induction m as [|[k v] m IH]; simpl; [left; reflexivity|].
  destruct (str_eqb k key) eqn:E.
  - apply str_eqb_eq in E. subst k. left. reflexivity.
  - right. exact IH.
Qed.

Lemma map_set_other (m : PatternMap) (key value k v : jsstring) :
  k <> key -> (In (k, v) (map_set m key value) <-> In (k, v) m).
Proof.
  intros Hne. induction m as [|[k' v'] m IH]; simpl.
  - split; [intros [E|[]]; injection E as <- _; congruence|intros []].
  - destruct (str_eqb k' key) eqn:E.
    + apply str_eqb_eq in E. subst k'. simpl.
      split; (intros [H|H]; [injection H as <- _; congruence|right; exact H]).
    + simpl. rewrite IH. reflexivity.
Qed.

Lemma map_set_NoDup (m : PatternMap) (key value : jsstring) :
  NoDup (map fst m) -> NoDup (map fst (map_set m key value)).
Proof.
  intros Hnd. destruct (map_set_keys m key value) as [H1 H2].
  destruct (in_dec (list_eq_dec N.eq_dec) key (map fst m)) as [Hin|Hout].
  - rewrite H1 by exact Hin. exact Hnd.
  - rewrite H2 by exact Hout. apply NoDup_app.
    + exact Hnd.
    + repeat constructor. intros [].
    + intros x Hx [<-|[]]. exact (Hout Hx).
Qed.

(** X19.  On an initialized engine [addTransformationPattern] writes the
    pair into the table of its kind and nowhere else: afterwards the term
    maps to the new replacement, every other term keeps its replacement,
    the terms stay distinct and keep their order (a new term goes last, a
    known term keeps its place), and the other table is untouched. *)
Theorem addTransformationPattern_table (e : EthicalMirrorEngine)
        (original replacement : jsstring) (kind : TransformationType) :
  initialized e = true ->
  NoDup (map fst (written_table kind e)) ->
  exists e',
    addTransformationPattern e original replacement kind = (Return tt, e')
    /\ initialized e' = true
    /\ other_table kind e' = other_table kind e
    /\ In (original, replacement) (written_table kind e')
    /\ (forall k v, k <> original ->
                    (In (k, v) (written_table kind e') <-> In (k, v) (written_table kind e)))
    /\ NoDup (map fst (written_table kind e'))
    /\ (In original (map fst (written_table kind e)) ->
        map fst (written_table kind e') = map fst (written_table kind e))
    /\ (~ In original (map fst (written_table kind e)) ->
        map fst (written_table kind e') = map fst (written_table kind e) ++ [original]).
Proof.
  intros Hi Hnd. unfold addTransformationPattern. rewrite Hi. cbn [negb].
  destruct kind; eexists; (split; [reflexivity|]);
    cbn [written_table other_table initialized transformationPatterns securityPatterns]
      in *;
    (split; [reflexivity|]); (split; [reflexivity|]);
    (split; [apply map_set_In|]);
    (split; [intros k v Hne; apply map_set_other, Hne|]);
    (split; [apply map_set_NoDup, Hnd|]);
    apply map_set_keys.
Qed.

Lemma distinct_NoDup (l : list jsstring) : distinct l = true -> NoDup l.
Proof.
  induction l as [|x l IH]; simpl; [constructor|].
  rewrite andb_true_iff, negb_true_iff. intros [Hx Hl]. constructor; [|apply IH, Hl].
  intros Hin. assert (E : existsb (str_eqb x) l = true).
  { apply existsb_exists. exists x. split; [exact Hin|apply str_eqb_refl]. }
  congruence.
Qed.

Lemma default_terms_distinct :
  NoDup (map fst (transformationPatterns engine))
  /\ NoDup (map fst (securityPatterns engine)).
Proof. split; apply distinct_NoDup; vm_compute; reflexivity. Qed.

Lemma addTransformationPattern_table_witness :
  exists e',
    addTransformationPattern engine (js "drain") (js "guard") ethical = (Return tt, e')
    /\ initialized e' = true
    /\ other_table ethical e' = other_table ethical engine
    /\ In (js "drain", js "guard") (written_table ethical e')
    /\ (forall k v, k <> js "drain" ->
                    (In (k, v) (written_table ethical e')
                     <-> In (k, v) (written_table ethical engine)))
    /\ NoDup (map fst (written_table ethical e'))
    /\ (In (js "drain") (map fst (written_table ethical engine)) ->
        map fst (written_table ethical e') = map fst (written_table ethical engine))
    /\ (~ In (js "drain") (map fst (written_table ethical engine)) ->
        map fst (written_table ethical e')
        = map fst (written_table ethical engine) ++ [js "drain"]).
Proof.
  apply (addTransformationPattern_table engine (js "drain") (js "guard") ethical).
  - reflexivity.
  - exact (proj1 default_terms_distinct).
Defined.

(** *** The stand-alone ethical_mirror *)

Lemma find_first_absent (p s : jsstring) :
  includes s p = false -> find_first p s = None.
Proof.
  induction s as [|x s IH]; simpl.
  - destruct (startsWith p []); [discriminate|reflexivity].
  - destruct (startsWith p (x :: s)); [discriminate|].
    simpl. intros H. rewrite (IH H). reflexivity.
Qed.

Lemma replace_absent (s p template : jsstring) :
  includes s p = false -> replace s p template = s.
Proof. intros H. unfold replace. rewrite (find_first_absent _ _ H). reflexivity. Qed.

(** X20.  The stand-alone [ethical_mirror] returns a text that contains
    neither "drain" nor "steal" unchanged; unlike the engine it rewrites
    inside longer words, so that the example of the technical proposal
    becomes "function protectWallet() { audit(funds); }". *)
Theorem ethical_mirror_plain :
  (forall code,
      includes code (js "drain") = false -> includes code (js "steal") = false ->
      ethical_mirror code = code)
  /\ ethical_mirror example = js "function protectWallet() { audit(funds); }".
Proof.
  split.
  - intros code H1 H2. unfold ethical_mirror.
    rewrite (replace_absent code _ _ H1). apply replace_absent, H2.
  - vm_compute. reflexivity.
Qed.

End MirrorMore.

(* ================================================================== *)
(** ** Proof of humanism: index range and threshold handling           *)
(* ================================================================== *)

Module PoHMore.

Import PoH Spec PoHProofs.

Lemma raise_loop (txString : jsstring) (patterns : list (jsstring * regex)) (start : Z) :
  exists hits,
    fold_left (fun score (entry : jsstring * regex) =>
                 if test true (snd entry) txString then score + 10 else score)
              patterns start
    = start + 10 * hits
    /\ 0 <= hits <= Z.of_nat (List.length patterns).
Proof.
  revert start. induction patterns as [|entry ps IH]; intros start.
  - exists 0. simpl. lia.
  - cbn [fold_left List.length].
    destruct (test true (snd entry) txString).
    + destruct (IH (start + 10)) as [h [E B]]. exists (h + 1). rewrite E. lia.
    + destruct (IH start) as [h [E B]]. exists h. rewrite E. lia.
Qed.

Lemma lower_loop (txString : jsstring) (patterns : list (jsstring * regex)) (start : Z) :
  exists hits,
    fold_left (fun score (entry : jsstring * regex) =>
                 if test true (snd entry) txString then score - 20 else score)
              patterns start
    = start - 20 * hits
    /\ 0 <= hits <= Z.of_nat (List.length patterns).
Proof.
  revert start. induction patterns as [|entry ps IH]; intros start.
  - exists 0. simpl. lia.
  - cbn [fold_left List.length].
    destruct (test true (snd entry) txString).
    + destruct (IH (start - 20)) as [h [E B]]. exists (h + 1). rewrite E. lia.
    + destruct (IH start) as [h [E B]]. exists h. rewrite E. lia.
Qed.

(** X21.  The humanism index of every transaction is a multiple of 5
    between 0 and 95: the base of 50 can gain at most 3 x 10 + 15, so 100
    is never reached. *)
Theorem calculateHumanismIndex_range (tx : Transaction) :
  0 <= calculateHumanismIndex tx <= 95
  /\ exists n, calculateHumanismIndex tx = 5 * n.
Proof.
  unfold calculateHumanismIndex.
  destruct (raise_loop (JSON_stringify tx) ethicalPatterns 50) as [a [Ea Ba]].
  rewrite Ea.
  destruct (lower_loop (JSON_stringify tx) unethicalPatterns (50 + 10 * a))
    as [b [Eb Bb]].
  rewrite Eb.
  change (Z.of_nat (List.length ethicalPatterns)) with 3 in Ba.
  change (Z.of_nat (List.length unethicalPatterns)) with 3 in Bb.
  destruct (hasLargeAmounts tx); destruct (involvesEthicalAddresses tx).
  - split; [lia|].
    destruct (Z.le_gt_cases 0 (50 + 10 * a - 20 * b - 15 + 15)).
    + exists (10 + 2 * a - 4 * b). lia.
    + exists 0. lia.
  - split; [lia|].
    destruct (Z.le_gt_cases 0 (50 + 10 * a - 20 * b - 15)).
    + exists (7 + 2 * a - 4 * b). lia.
    + exists 0. lia.
  - split; [lia|].
    destruct (Z.le_gt_cases 0 (50 + 10 * a - 20 * b + 15)).
    + exists (13 + 2 * a - 4 * b). lia.
    + exists 0. lia.
  - split; [lia|].
    destruct (Z.le_gt_cases 0 (50 + 10 * a - 20 * b)).
    + exists (10 + 2 * a - 4 * b). lia.
    + exists 0. lia.
Qed.

Lemma index_at_most_95 (tx : Transaction) : calculateHumanismIndex tx <= 95.
Proof.
  unfold calculateHumanismIndex.
  destruct (raise_loop (JSON_stringify tx) ethicalPatterns 50) as [a [Ea Ba]].
  rewrite Ea.
  destruct (lower_loop (JSON_stringify tx) unethicalPatterns (50 + 10 * a))
    as [b [Eb Bb]].
  rewrite Eb.
  change (Z.of_nat (List.length ethicalPatterns)) with 3 in Ba.
  change (Z.of_nat (List.length unethicalPatterns)) with 3 in Bb.
  destruct (hasLargeAmounts tx); destruct (involvesEthicalAddresses tx); lia.
Qed.

(** X22.  [updateEthicalThreshold] stores whatever threshold it is given,
    without the range check of [proposeNewThreshold]; once the stored value
    is 95 or more, which includes values that pass that range check,
    [validateTransaction] rejects every transaction. *)
Theorem threshold_out_of_reach (p : ProofOfHumanism) (t : EthicalThreshold) (q : Q)
        (tx : Transaction) :
  initialized p = true ->
  value t = Num q ->
  (95 <= q)%Q ->
  exists p' r,
    updateEthicalThreshold p t = (Return tt, p')
    /\ getEthicalThreshold p' = Return t
    /\ validateTransaction p' tx = Return r
    /\ validationResult r = false.
Proof.
  intros Hi Hv Hq. unfold updateEthicalThreshold. rewrite Hi. cbn [negb].
  eexists _, _. split; [reflexivity|].
  unfold getEthicalThreshold, validateTransaction.
  cbn [initialized ethicalThreshold negb].
  split; [reflexivity|]. split; [reflexivity|]. cbn [validationResult].
  apply andb_false_intro1. rewrite Hv.
  apply not_true_is_false. intros H. apply gt_exceeds in H. simpl in H.
  pose proof (index_at_most_95 tx) as Hb.
  assert (Hc : (inject_Z (calculateHumanismIndex tx) <= 95)%Q).
  { change 95%Q with (inject_Z 95). rewrite <- Zle_Qle. exact Hb. }
  lra.
Qed.

Lemma threshold_out_of_reach_witness :
  exists p' r,
    updateEthicalThreshold (initialize 0 (constructor 0))
      {| value := of_Z 100; lastUpdated := 1; proposedBy := js "Test"; votes := [] |}
    = (Return tt, p')
    /\ getEthicalThreshold p'
       = Return {| value := of_Z 100; lastUpdated := 1; proposedBy := js "Test";
                   votes := [] |}
    /\ validateTransaction p'
         {| signatures := Some [ {| signature := Some [1%N]; publicKey := js "k" |} ];
            JSON_stringify := js "{donate to CharityWallet123, open community}" |}
       = Return r
    /\ validationResult r = false.
Proof.
  apply (threshold_out_of_reach (initialize 0 (constructor 0))
           {| value := of_Z 100; lastUpdated := 1; proposedBy := js "Test"; votes := [] |}
           (inject_Z 100)).
  - reflexivity.
  - reflexivity.
  - vm_compute. discriminate.
Defined.

(** X23.  A second [initialize] changes nothing: a threshold installed by
    [updateEthicalThreshold] survives it, and [getEthicalThreshold] keeps
    returning the installed threshold, also when its value lies outside
    0..100. *)
Theorem initialize_keeps_threshold (p : ProofOfHumanism) (t : EthicalThreshold)
        (loaded : Z) :
  initialized p = true ->
  exists p',
    updateEthicalThreshold p t = (Return tt, p')
    /\ initialize loaded p' = p'
    /\ getEthicalThreshold (initialize loaded p') = Return t.
Proof.
  intros Hi. unfold updateEthicalThreshold. rewrite Hi. cbn [negb].
  eexists. split; [reflexivity|].
  unfold initialize, getEthicalThreshold.
  cbn [initialized ethicalThreshold negb]. split; reflexivity.
Qed.

Lemma initialize_keeps_threshold_witness :
  exists p',
    updateEthicalThreshold (initialize 0 (constructor 0))
      {| value := of_Z 150; lastUpdated := 1; proposedBy := js "Test"; votes := [] |}
    = (Return tt, p')
    /\ initialize 2 p' = p'
    /\ getEthicalThreshold (initialize 2 p')
       = Return {| value := of_Z 150; lastUpdated := 1; proposedBy := js "Test";
                   votes := [] |}.
Proof.
  apply (initialize_keeps_threshold (initialize 0 (constructor 0))). reflexivity.
Defined.

(** X24.  The stand-alone [validate_transaction] never returns: the
    component it constructs is not initialized, so asking it for the
    threshold throws, for every transaction. *)
Theorem validate_transaction_throws (created : Z) (tx : Transaction) :
  validate_transaction created tx = Throw NOT_INITIALIZED.
Proof. reflexivity. Qed.

End PoHMore.

(* ================================================================== *)
(** ** Identifiers                                                     *)
(* ================================================================== *)

Module IdProofs.

Import Auditor Spec JSFacts ScannerProofs.

Lemma digits_inj (d1 d2 : Decimal.uint) :
  js (NilEmpty.string_of_uint d1) = js (NilEmpty.string_of_uint d2) -> d1 = d2.
Proof.
  revert d2. induction d1 as [|d1 IH|d1 IH|d1 IH|d1 IH|d1 IH|d1 IH|d1 IH|d1 IH|d1 IH|d1 IH];
    intros [|d2|d2|d2|d2|d2|d2|d2|d2|d2|d2]; simpl; intros H;
    try discriminate H; try reflexivity;
    injection H as H; f_equal; apply IH, H.
Qed.

Lemma digits_no_dash (d : Decimal.uint) : ~ In 45%N (js (NilEmpty.string_of_uint d)).
Proof.
  induction d; simpl; intros H; try (destruct H as [H|H]; [discriminate H|]);
    try contradiction.
Qed.

Lemma decimal_digits (n : N) : decimal n = js (NilEmpty.string_of_uint (N.to_uint n)).
Proof.
  unfold decimal, NilZero.string_of_uint.
  destruct (N.to_uint n) eqn:E; try reflexivity.
  exfalso. destruct n as [|p]; [discriminate E|].
  exact (DecimalPos.Unsigned.to_uint_nonnil p E).
Qed.

Lemma decimal_inj (n1 n2 : N) : decimal n1 = decimal n2 -> n1 = n2.
Proof.
  rewrite !decimal_digits. intros H. apply digits_inj in H.
  apply DecimalN.Unsigned.to_uint_inj, H.
Qed.

Lemma decimal_no_dash (n : N) : ~ In 45%N (decimal n).
Proof. rewrite decimal_digits. apply digits_no_dash. Qed.

Lemma split_at_mark {A} (x : A) (l1 l2 r1 r2 : list A) :
  ~ In x l1 -> ~ In x l2 -> l1 ++ x :: r1 = l2 ++ x :: r2 -> l1 = l2 /\ r1 = r2.
Proof.
  revert l2. induction l1 as [|a l1 IH]; intros [|b l2] H1 H2 E; simpl in E.
  - injection E as ->. auto.
  - injection E as -> _. exfalso. apply H2. left. reflexivity.
  - injection E as -> _. exfalso. apply H1. left. reflexivity.
  - injection E as -> E. destruct (IH l2) as [-> ->]; auto.
    + intros H. apply H1. right. exact H.
    + intros H. apply H2. right. exact H.
Qed.

(** An identifier determines its stamp and its number. *)
Lemma stamped_inj (prefix : jsstring) (s1 s2 : N) (n1 n2 : nat) :
  prefix ++ decimal s1 ++ js "-" ++ decimal (N.of_nat n1)
  = prefix ++ decimal s2 ++ js "-" ++ decimal (N.of_nat n2) ->
  s1 = s2 /\ n1 = n2.
Proof.
  intros H. apply app_inv_head in H.
  change (js "-") with [45%N] in H. cbn [app] in H.
  apply split_at_mark in H; try apply decimal_no_dash.
  destruct H as [Hs Hn]. apply decimal_inj in Hs. apply decimal_inj in Hn.
  split; [exact Hs|]. apply Nat2N.inj, Hn.
Qed.

Lemma numbered_NoDup {A} (f : nat -> A) (start len : nat) :
  (forall j k, f j = f k -> j = k) -> NoDup (map f (seq start len)).
Proof.
  intros Hinj. revert start. induction len as [|len IH]; intros start; simpl;
    constructor; [|apply IH].
  intros Hin. apply in_map_iff in Hin. destruct Hin as [k [E Hk]].
  apply Hinj in E. apply in_seq in Hk. lia.
Qed.

(** The loops number the findings as they push them. *)
Lemma line_findings_ids now lines i line patterns count :
  map id (line_findings now lines i line patterns count)
  = map (fun k => vuln_id (now k) k)
        (seq count (List.length (line_findings now lines i line patterns count))).
Proof.
  revert count. induction patterns as [|[k p] ps IH]; intros count; simpl;
    [reflexivity|].
  destruct (pattern_test p line); [|apply IH].
  cbn [map List.length seq id finding]. rewrite IH. reflexivity.
Qed.

Lemma all_findings_ids now patterns lines rest i count :
  map id (all_findings now patterns lines i rest count)
  = map (fun k => vuln_id (now k) k)
        (seq count (List.length (all_findings now patterns lines i rest count))).
Proof.
  revert i count. induction rest as [|line rest IH]; intros i count; [reflexivity|].
  cbn [all_findings]. rewrite map_app, length_app, seq_app, map_app.
  rewrite line_findings_ids, IH. reflexivity.
Qed.

(** X25.  The identifiers of the findings of one built-in scan are
    pairwise distinct: the finding at position k is numbered k, whatever
    the clock reads. *)
Theorem scan_ids_distinct (now : nat -> N) (contractCode : jsstring) :
  NoDup (map id (scan now contractCode))
  /\ forall k f, nth_error (scan now contractCode) k = Some f ->
                 id f = vuln_id (now k) k.
Proof.
  rewrite scan_eq.
  pose proof (all_findings_ids now vulnerabilityPatterns (split_lines contractCode)
                (split_lines contractCode) 0 0) as E.
  split.
  - rewrite E. apply numbered_NoDup. intros j k H.
    unfold vuln_id in H. apply stamped_inj in H. apply H.
  - intros k f Hk.
    assert (Hid : nth_error (map id (all_findings now vulnerabilityPatterns
                     (split_lines contractCode) 0 (split_lines contractCode) 0)) k
                  = Some (id f)) by (rewrite nth_error_map, Hk; reflexivity).
    rewrite E, nth_error_map in Hid.
    assert (Hlen : (k < List.length (all_findings now vulnerabilityPatterns
                     (split_lines contractCode) 0 (split_lines contractCode) 0))%nat)
      by (apply nth_error_Some; congruence).
    rewrite (nth_error_nth' _ 0%nat) in Hid by (rewrite length_seq; exact Hlen).
    rewrite seq_nth in Hid by exact Hlen. simpl in Hid. congruence.
Qed.

Lemma map_index_ids (w : World) (l : list ModelVulnerability) (index : nat) :
  map id (map_index (convert_vulnerability w) index l)
  = map (fun k => vuln_id (Date_now w k) k) (seq index (List.length l)).
Proof.
  revert index. induction l as [|v l IH]; intros index; simpl; [reflexivity|].
  rewrite IH. reflexivity.
Qed.

(** X26.  The findings converted from a model result carry pairwise
    distinct identifiers as well. *)
Theorem converted_ids_distinct (w : World) (modelResult : ModelAuditResult)
        (contractPath : jsstring) (found : list ModelVulnerability) :
  mr_vulnerabilities modelResult = Some found ->
  exists r,
    convertModelAuditResult w modelResult contractPath = Return r
    /\ NoDup (map id (vulnerabilities r)).
Proof.
  intros Hf. unfold convertModelAuditResult. rewrite Hf.
  eexists. split; [reflexivity|]. cbn [vulnerabilities].
  rewrite map_index_ids. apply numbered_NoDup. intros j k H.
  unfold vuln_id in H. apply stamped_inj in H. apply H.
Qed.

Lemma converted_ids_distinct_witness :
  exists r,
    convertModelAuditResult Scenario.failing_model Scenario.model_answer Scenario.contract
    = Return r
    /\ NoDup (map id (vulnerabilities r)).
Proof.
  eapply (converted_ids_distinct Scenario.failing_model Scenario.model_answer
            Scenario.contract).
  reflexivity.
Defined.

End IdProofs.

(* ================================================================== *)
(** ** Word patterns                                                   *)
(* ================================================================== *)

Module WordProofs.

Import Spec MatcherSpec.

(** A literal word under the i flag matches where the word starts the
    text, whatever the letter case. *)
Lemma run_lit {A} (w : jsstring) :
  forall prev s (k : option code_unit -> jsstring -> option A),
    (forall p p' t, k p t = k p' t) ->
    run true (lit w) prev s k
    = if starts_ignoring_case w s then k None (skipn (List.length w) s) else None.
Proof.
  induction w as [|c w IH]; intros prev s k Hk; [apply Hk|].
  assert (Hatom : run true (Atom (CLit c)) prev s (fun p t => run true (lit w) p t k)
                  = if starts_ignoring_case (c :: w) s
                    then k None (skipn (List.length (c :: w)) s)
                    else None).
  { cbn [run]. destruct s as [|x s]; [reflexivity|].
    cbn [accepts starts_ignoring_case].
    destruct (unit_eqb (Canonicalize c) (Canonicalize x)); [|reflexivity].
    cbn [andb]. rewrite (IH _ _ _ Hk). reflexivity. }
  destruct w as [|c2 w].
  - cbn [lit]. rewrite <- Hatom. cbn [run lit].
    destruct s as [|x s]; [reflexivity|].
    destruct (accepts true (CLit c) x); [apply Hk|reflexivity].
  - exact Hatom.
Qed.

Lemma orElse_succeeds_iff {A} (a b : option A) :
  succeeds (orElse a b) <-> succeeds a \/ succeeds b.
Proof.
  unfold succeeds, orElse. destruct a as [x|].
  - split; [intros _; left; discriminate|intros _; discriminate].
  - split; [intros H; right; exact H|intros [H|H]; [congruence|exact H]].
Qed.

Lemma word_run {A} (w : string) prev s
      (k : option code_unit -> jsstring -> option A) :
  (forall p p' t, k p t = k p' t) ->
  (succeeds (run true (word w) prev s k)
   <-> starts_ignoring_case (js w) s = true
       /\ succeeds (k None (skipn (List.length (js w)) s))).
Proof.
  intros Hk. unfold word. rewrite (run_lit _ _ _ _ Hk).
  destruct (starts_ignoring_case (js w) s).
  - tauto.
  - unfold succeeds. split; [congruence|intros [H _]; discriminate].
Qed.

Lemma alt_words_run {A} (words : list string) :
  forall (r : regex) (P : string -> Prop),
    (forall prev s (k : option code_unit -> jsstring -> option A),
        (forall p p' t, k p t = k p' t) ->
        (succeeds (run true r prev s k)
         <-> exists w, P w /\ starts_ignoring_case (js w) s = true
                       /\ succeeds (k None (skipn (List.length (js w)) s)))) ->
    forall prev s (k : option code_unit -> jsstring -> option A),
      (forall p p' t, k p t = k p' t) ->
      (succeeds (run true (fold_left (fun r x => Alt r (word x)) words r) prev s k)
       <-> exists w, (P w \/ In w words)
                     /\ starts_ignoring_case (js w) s = true
                     /\ succeeds (k None (skipn (List.length (js w)) s))).
Proof.
  induction words as [|x ws IH]; intros r P Hr prev s k Hk; cbn [fold_left].
  - rewrite (Hr prev s k Hk). split; intros [w [H1 H2]]; exists w.
    + split; [left; exact H1|exact H2].
    + destruct H1 as [H1|[]]. split; assumption.
  - rewrite (IH (Alt r (word x)) (fun w => P w \/ w = x)); [| |exact Hk].
    + split; intros [w [H1 H2]]; exists w; (split; [|exact H2]).
      * destruct H1 as [[H|H]|H];
          [left; exact H|right; left; symmetry; exact H|right; right; exact H].
      * destruct H1 as [H|[H|H]];
          [left; left; exact H|left; right; symmetry; exact H|right; exact H].
    + clear prev s k Hk. intros prev s k Hk. cbn [run].
      rewrite orElse_succeeds_iff, (Hr prev s k Hk), (word_run x prev s k Hk).
      split.
      * intros [[w [H1 H2]]|H].
        -- exists w. split; [left; exact H1|exact H2].
        -- exists x. split; [right; reflexivity|exact H].
      * intros [w [[H1| ->] H2]].
        -- left. exists w. split; assumption.
        -- right. exact H2.
Qed.

Lemma any_of_run {A} (words : list string) (first : string) :
  forall prev s (k : option code_unit -> jsstring -> option A),
    (forall p p' t, k p t = k p' t) ->
    succeeds (run true (fold_left (fun r x => Alt r (word x)) words (word first)) prev s k)
    <-> exists w, In w (first :: words)
                  /\ starts_ignoring_case (js w) s = true
                  /\ succeeds (k None (skipn (List.length (js w)) s)).
Proof.
  intros prev s k Hk.
  rewrite (alt_words_run words (word first) (fun w => w = first)); [| |exact Hk].
  - split; intros [w [H1 H2]]; exists w; (split; [|exact H2]).
    + destruct H1 as [H|H]; [left; symmetry; exact H|right; exact H].
    + destruct H1 as [H|H]; [left; symmetry; exact H|right; exact H].
  - clear prev s k Hk. intros prev s k Hk. rewrite (word_run first prev s k Hk).
    split; [intros H; exists first; split; [reflexivity|exact H]|].
    intros [w [-> H]]. exact H.
Qed.

(** An alternation of words under the i flag tests true exactly on the
    texts in which one of the words occurs, in any letter case. *)
Lemma words_test (first : string) (words : list string) (s : jsstring) :
  test true (fold_left (fun r x => Alt r (word x)) words (word first)) s
  = existsb (fun w => occurs_ignoring_case (js w) s) (first :: words).
Proof.
  unfold test. generalize (@None code_unit) as prev.
  induction s as [|x s IH]; intros prev.
  - cbn [test_from]. unfold matchHere.
    pose proof (any_of_run words first prev [] (fun _ t => Some t)
                  (fun _ _ _ => eq_refl)) as H.
    destruct (run true (fold_left (fun r x => Alt r (word x)) words (word first))
                  prev [] (fun _ t => Some t)) eqn:E.
    + symmetry. apply existsb_exists.
      destruct (proj1 H) as [w [H1 [H2 _]]]; [discriminate|].
      exists w. split; [exact H1|]. cbn [occurs_ignoring_case]. rewrite H2. reflexivity.
    + symmetry. apply not_true_is_false. intros Hex. apply existsb_exists in Hex.
      destruct Hex as [w [H1 H2]]. cbn [occurs_ignoring_case] in H2.
      rewrite orb_false_r in H2.
      assert (Hs : succeeds (@None jsstring)).
      { apply (proj2 H). exists w. repeat split; [exact H1|exact H2|discriminate]. }
      apply Hs. reflexivity.
  - cbn [test_from]. unfold matchHere.
    pose proof (any_of_run words first prev (x :: s) (fun _ t => Some t)
                  (fun _ _ _ => eq_refl)) as H.
    destruct (run true (fold_left (fun r x => Alt r (word x)) words (word first))
                  prev (x :: s) (fun _ t => Some t)) eqn:E.
    + symmetry. apply existsb_exists.
      destruct (proj1 H) as [w [H1 [H2 _]]]; [discriminate|].
      exists w. split; [exact H1|]. cbn [occurs_ignoring_case]. rewrite H2. reflexivity.
    + rewrite IH. apply eq_true_iff_eq. rewrite <- !not_false_iff_true.
      rewrite !not_false_iff_true. split.
      * intros Hex. apply existsb_exists in Hex. destruct Hex as [w [H1 H2]].
        apply existsb_exists. exists w. split; [exact H1|].
        cbn [occurs_ignoring_case]. rewrite H2. apply orb_true_r.
      * intros Hex. apply existsb_exists in Hex. destruct Hex as [w [H1 H2]].
        apply existsb_exists. exists w. split; [exact H1|].
        cbn [occurs_ignoring_case] in H2. apply orb_true_iff in H2.
        destruct H2 as [H2|H2]; [|exact H2]. exfalso.
        assert (Hs : succeeds (@None jsstring)).
        { apply (proj2 H). exists w. repeat split; [exact H1|exact H2|discriminate]. }
        apply Hs. reflexivity.
Qed.

(** X27.  The self-destruct rule of the scanner fires on a line exactly
    when the line contains "selfdestruct" or "suicide" somewhere, in any
    letter case and also inside a longer word. *)
Theorem selfdestruct_rule (line : jsstring) :
  In (js "unsecuredSelfDestruct", Alt (word "selfdestruct") (word "suicide"))
     Auditor.vulnerabilityPatterns
  /\ Auditor.pattern_test (Alt (word "selfdestruct") (word "suicide")) line
     = occurs_ignoring_case (js "selfdestruct") line
       || occurs_ignoring_case (js "suicide") line.
Proof.
  split; [do 4 right; left; reflexivity|].
  unfold Auditor.pattern_test.
  change (Alt (word "selfdestruct") (word "suicide"))
    with (fold_left (fun r x => Alt r (word x)) ["suicide"%string] (word "selfdestruct")).
  rewrite (words_test "selfdestruct" ["suicide"%string] line).
  cbn [existsb]. rewrite orb_false_r. reflexivity.
Qed.

(** X28.  Each pattern group of the humanism index fires exactly when one
    of its three words occurs in the serialized transaction, in any letter
    case and also inside a longer word: the three ethical groups and the
    three unethical groups, in table order. *)
Theorem humanism_patterns (txString : jsstring) :
  map (fun entry => test true (snd entry) txString)
      (PoH.ethicalPatterns ++ PoH.unethicalPatterns)
  = map (existsb (fun w => occurs_ignoring_case (js w) txString))
        [ ["donate"; "charity"; "support"];
          ["community"; "ecosystem"; "public"];
          ["transparent"; "open"; "visible"];
          ["drain"; "steal"; "hack"];
          ["attack"; "exploit"; "vulnerability"];
          ["scam"; "fraud"; "fake"] ]%string.
Proof.
  unfold PoH.ethicalPatterns, PoH.unethicalPatterns, PoH.any_of.
  cbn [app map snd]. rewrite !words_test. reflexivity.
Qed.

End WordProofs.
